(** * serve: an HTTP file server overlaying several directory roots

    A shallow embedding of [serve.go] and the properties of its request
    pipeline: traversal validation, the file pass, the fallback resource,
    the listing pass and the rendering of listings.

    Go strings are byte sequences; they are modelled by [string] (a list of
    8-bit [ascii] characters).  The host environment (file system, the
    content-serving primitive of net/http) is a record of oracles; the
    response writer, the file-system accesses and the log are threaded
    through a small state monad. *)

From Stdlib Require Import String Ascii List Bool Arith ZArith Lia.
From Stdlib Require Import Sorted Permutation.
Import ListNotations.
Local Open Scope list_scope.
Local Open Scope string_scope.

(** ** Package strings *)

Module strings.

(** [strings.Contains(s, substr)]: [substr] occurs in [s] at some offset.
    The empty string occurs in every string. *)
Fixpoint Contains (s substr : string) : bool :=
  prefix substr s ||
  match s with
  | EmptyString => false
  | String _ rest => Contains rest substr
  end.

(** [strings.FieldsFunc(s, f)]: the maximal runs of characters not
    satisfying [f].  Go keeps the index [start] of the field being read
    ([start < 0] between fields); here [cur] is [None] between fields and
    otherwise holds the characters read since [start].

    The separators tested by this program are the ASCII characters '/' and
    '\'.  No byte of a multi-byte UTF-8 sequence (nor an invalid byte, which
    Go decodes as U+FFFD) is below 0x80, so scanning bytes yields the same
    fields as Go's scan over runes. *)
Fixpoint fieldsFrom (f : ascii -> bool) (cur : option string) (s : string)
  : list string :=
  match s with
  | EmptyString =>
      match cur with
      | Some field => [field]
      | None => []
      end
  | String c rest =>
      if f c then
        match cur with
        | Some field => field :: fieldsFrom f None rest
        | None => fieldsFrom f None rest
        end
      else
        match cur with
        | Some field => fieldsFrom f (Some (field ++ String c EmptyString)) rest
        | None => fieldsFrom f (Some (String c EmptyString)) rest
        end
  end.

Definition FieldsFunc (s : string) (f : ascii -> bool) : list string :=
  fieldsFrom f None s.

(** [strings.Join(elems, sep)]. *)
Definition Join (elems : list string) (sep : string) : string :=
  String.concat sep elems.

End strings.

(** ** Requests *)

(** The fields of [*http.Request] the handler reads.  [Header] maps
    canonical header names to their first value. *)
Record Request : Type := mkRequest {
  RemoteAddr : string;
  Method : string;
  URL_Path : string;
  Header : list (string * string)
}.

(** [r.Header.Get(key)]: the first value stored under [key], the empty
    string when there is none. *)
Fixpoint Header_Get (h : list (string * string)) (key : string) : string :=
  match h with
  | [] => ""
  | (k, v) :: rest => if k =? key then v else Header_Get rest key
  end.

(** ** Traversal validation *)

Definition isSlashRune (r : ascii) : bool :=
  (r =? "/")%char || (r =? "\")%char.

(** The loop of [validRequest] over the fields: the first field equal to
    [".."] makes it return [false]. *)
Fixpoint scanFields (fields : list string) : bool :=
  match fields with
  | [] => true
  | field :: rest => if field =? ".." then false else scanFields rest
  end.

Definition validRequest (r : Request) : bool :=
  if negb (strings.Contains (URL_Path r) "..") then true
  else scanFields (strings.FieldsFunc (URL_Path r) isSlashRune).

(** The plain formulation of the check: scan the tokens of every path,
    without the substring test in front. *)
Definition validRequest_plain (r : Request) : bool :=
  scanFields (strings.FieldsFunc (URL_Path r) isSlashRune).

(** The tokens of a path in the words of the specification: the path is cut
    at every forward slash and every back slash; two adjacent separators
    delimit an empty token. *)
Fixpoint splitFrom (cur : string) (s : string) : list string :=
  match s with
  | EmptyString => [cur]
  | String c rest =>
      if isSlashRune c then cur :: splitFrom "" rest
      else splitFrom (cur ++ String c EmptyString) rest
  end.

Definition tokens (path : string) : list string := splitFrom "" path.

Definition nonEmpty (s : string) : bool := negb (s =? "").

(** ** Package path/filepath (on a host whose separator is '/') *)

Module filepath.

(** The elements of a path between its separators, empty ones included. *)
Fixpoint elementsFrom (cur : string) (s : string) : list string :=
  match s with
  | EmptyString => [cur]
  | String c rest =>
      if (c =? "/")%char then cur :: elementsFrom "" rest
      else elementsFrom (cur ++ String c EmptyString) rest
  end.

(** The rules of [Clean], element by element; [out] is the output built so
    far, last element first.  An empty element (two separators in a row)
    and a "." element are dropped; a ".." element removes the element
    before it unless that one is itself a kept "..", is kept at the start
    of a relative path and is dropped at the start of a rooted one. *)
Fixpoint cleanElements (rooted : bool) (out : list string) (elems : list string)
  : list string :=
  match elems with
  | [] => rev out
  | e :: rest =>
      if (e =? "") || (e =? ".") then cleanElements rooted out rest
      else if e =? ".." then
        match out with
        | top :: below =>
            if top =? ".." then cleanElements rooted (e :: out) rest
            else cleanElements rooted below rest
        | [] =>
            if rooted then cleanElements rooted out rest
            else cleanElements rooted (e :: out) rest
        end
      else cleanElements rooted (e :: out) rest
  end.

(** [filepath.Clean(path)]: the shortest path name equivalent to [path] by
    purely lexical processing.  The empty path cleans to ".". *)
Definition Clean (path : string) : string :=
  if path =? "" then "."
  else
    let rooted := prefix "/" path in
    let out := String.concat "/" (cleanElements rooted [] (elementsFrom "" path)) in
    if rooted then "/" ++ out
    else if out =? "" then "." else out.

(** [filepath.Join(elem...)]: the elements from the first non-empty one on
    are joined with the separator and the result is cleaned; when every
    element is empty the result is the empty string. *)
Fixpoint Join (elem : list string) : string :=
  match elem with
  | [] => ""
  | e :: rest =>
      if e =? "" then Join rest
      else Clean (strings.Join elem "/")
  end.

End filepath.

(** ** Package os and the host environment *)

(** A Go [error] value, by its message. *)
Definition error : Type := string.

(** The pair (value, err) returned by a fallible call: [Ok v] when
    [err == nil], [Err e] otherwise. *)
Inductive result (A : Type) : Type :=
| Ok (value : A)
| Err (err : error).
Arguments Ok {A} value.
Arguments Err {A} err.

Module os.

(** What the program reads of an [os.FileInfo]. *)
Record FileInfo : Type := mkFileInfo {
  Name : string;
  ModTime : Z;
  IsDir : bool
}.

(** An open file, by the bytes it delivers. *)
Record File : Type := mkFile {
  Contents : string
}.

End os.

(** The response under construction behind an [http.ResponseWriter]:
    the header map, the status line once it has been written, and the
    body bytes written so far. *)
Record ResponseWriter : Type := mkResponseWriter {
  header : list (string * string);
  status : option nat;
  body : string
}.

(** The capabilities taken from the host: [os.Stat], [os.Open], the
    directory enumeration behind [ioutil.ReadDir] (opening the directory
    and reading all its entries, in the order the file system delivers
    them), and [http.ServeContent], which answers the request from an open
    file (status, range and conditional handling, content type) and is
    given here by its effect on the response. *)
Record Host : Type := mkHost {
  Stat : string -> result os.FileInfo;
  Open : string -> result os.File;
  Readdir : string -> result (list os.FileInfo);
  ServeContent :
    Request -> string -> Z -> os.File -> ResponseWriter -> ResponseWriter
}.

(** The flags, bound by [getFlags] to package-level variables. *)
Record Flags : Type := mkFlags {
  host : string;
  port : string;
  index : string;
  noList : bool;
  verbose : bool
}.

Definition version : string := "HEAD".

(** ** Effects *)

(** One access to the file system. *)
Inductive FsAccess : Type :=
| AccStat (path : string)
| AccOpen (path : string)
| AccReadDir (path : string).

(** One call to the logger, by its format and arguments. *)
Inductive LogCall : Type :=
| Printf (format : string) (args : list string)
| Println (args : list string).

(** What a request changes: the response, the file-system accesses made
    (oldest first) and the log. *)
Record World : Type := mkWorld {
  resp : ResponseWriter;
  accesses : list FsAccess;
  logged : list LogCall
}.

Definition M (A : Type) : Type := World -> A * World.

Definition ret {A : Type} (a : A) : M A := fun s => (a, s).

Definition bind {A B : Type} (m : M A) (k : A -> M B) : M B :=
  fun s => let (a, s') := m s in k a s'.

Notation "x <- m ;; k" := (bind m (fun x => k))
  (at level 61, m at next level, right associativity).
Notation "m ;; k" := (bind m (fun _ => k))
  (at level 61, right associativity).

Definition onResponse (f : ResponseWriter -> ResponseWriter) : M unit :=
  fun s => (tt, mkWorld (f (resp s)) (accesses s) (logged s)).

Definition access (a : FsAccess) : M unit :=
  fun s => (tt, mkWorld (resp s) (accesses s ++ [a])%list (logged s)).

Definition log (l : LogCall) : M unit :=
  fun s => (tt, mkWorld (resp s) (accesses s) (logged s ++ [l])%list).

Definition when (b : bool) (m : M unit) : M unit :=
  if b then m else ret tt.

(** ** Package net/http: the response writer *)

Module http.

Definition StatusOK : nat := 200.
Definition StatusBadRequest : nat := 400.
Definition StatusNotFound : nat := 404.

(** [w.Header().Set(key, value)]: replaces what is stored under [key]. *)
Definition setHeader (key value : string) (w : ResponseWriter) : ResponseWriter :=
  mkResponseWriter
    ((key, value) :: filter (fun kv => negb (fst kv =? key)) (header w))
    (status w) (body w).

(** [w.WriteHeader(code)]: the status line is written once; a later call
    changes nothing. *)
Definition writeHeader (code : nat) (w : ResponseWriter) : ResponseWriter :=
  match status w with
  | Some _ => w
  | None => mkResponseWriter (header w) (Some code) (body w)
  end.

(** [w.Write(data)]: a write with no status written yet first writes
    status 200. *)
Definition write (data : string) (w : ResponseWriter) : ResponseWriter :=
  let w' := writeHeader StatusOK w in
  mkResponseWriter (header w') (status w') (body w' ++ data).

(** The status the server sends for [w] once the handler has returned: the
    one written, and 200 when the handler wrote none. *)
Definition statusSent (w : ResponseWriter) : nat :=
  match status w with
  | Some code => code
  | None => StatusOK
  end.

Definition Header_Set (key value : string) : M unit :=
  onResponse (setHeader key value).

Definition WriteHeader (code : nat) : M unit :=
  onResponse (writeHeader code).

Definition Write (data : string) : M unit :=
  onResponse (write data).

(** [http.Error(w, error, code)]: a plain-text reply, the message followed
    by a newline. *)
Definition Error (msg : string) (code : nat) : M unit :=
  Header_Set "Content-Type" "text/plain; charset=utf-8" ;;
  Header_Set "X-Content-Type-Options" "nosniff" ;;
  WriteHeader code ;;
  Write (msg ++ String (ascii_of_nat 10) EmptyString).

(** [http.NotFound(w, r)]. *)
Definition NotFound : M unit :=
  Error "404 page not found" StatusNotFound.

End http.

(** ** Package html/template: the escapers applied to the template's actions *)

Module template.

Definition dq : string := String (ascii_of_nat 34) EmptyString.
Definition nl : string := String (ascii_of_nat 10) EmptyString.
Definition tab : string := String (ascii_of_nat 9) EmptyString.

(** Applies a byte-wise replacement table: a byte with an entry is
    replaced, every other byte is copied. *)
Fixpoint replaceBytes (table : ascii -> option string) (s : string) : string :=
  match s with
  | EmptyString => ""
  | String c rest =>
      match table c with
      | Some repl => repl ++ replaceBytes table rest
      | None => String c (replaceBytes table rest)
      end
  end.

(** The replacement table of the escaper for element content (the NUL
    byte becomes U+FFFD, in UTF-8). *)
Definition htmlReplacementTable (c : ascii) : option string :=
  match nat_of_ascii c with
  | 0 => Some (String (ascii_of_nat 239)
                (String (ascii_of_nat 191) (String (ascii_of_nat 189) "")))
  | 34 => Some "&#34;"
  | 38 => Some "&amp;"
  | 39 => Some "&#39;"
  | 43 => Some "&#43;"
  | 60 => Some "&lt;"
  | 62 => Some "&gt;"
  | _ => None
  end.

(** The replacement table of the escaper for unquoted attribute values. *)
Definition htmlNospaceReplacementTable (c : ascii) : option string :=
  match nat_of_ascii c with
  | 0 => Some "&#xfffd;"
  | 9 => Some "&#9;"
  | 10 => Some "&#10;"
  | 11 => Some "&#11;"
  | 12 => Some "&#12;"
  | 13 => Some "&#13;"
  | 32 => Some "&#32;"
  | 34 => Some "&#34;"
  | 38 => Some "&amp;"
  | 39 => Some "&#39;"
  | 43 => Some "&#43;"
  | 60 => Some "&lt;"
  | 61 => Some "&#61;"
  | 62 => Some "&gt;"
  | 96 => Some "&#96;"
  | _ => None
  end.

(** The escaper of an action in element content. *)
Definition htmlEscaper (s : string) : string :=
  replaceBytes htmlReplacementTable s.

(** The escaper of an action in an unquoted attribute value: an empty
    value would leave the attribute without one, so the filler [ZgotmplZ]
    is written instead.  It is applied below to the output of
    [urlNormalizer] only, which is ASCII. *)
Definition htmlNospaceEscaper (s : string) : string :=
  if s =? "" then "ZgotmplZ"
  else replaceBytes htmlNospaceReplacementTable s.

Definition inRange (lo hi n : nat) : bool := Nat.leb lo n && Nat.leb n hi.

Definition isHex (c : ascii) : bool :=
  let n := nat_of_ascii c in
  inRange 48 57 n || inRange 97 102 n
  || inRange 65 70 n.

Definition hexDigit (n : nat) : ascii :=
  if Nat.ltb n 10 then ascii_of_nat (48 + n) else ascii_of_nat (87 + n).

(** [%%%02x]: a percent sign and the byte in two lower-case hex digits. *)
Definition percentEncode (c : ascii) : string :=
  let n := nat_of_ascii c in
  String "%" (String (hexDigit (n / 16)) (String (hexDigit (n mod 16)) "")).

(** The bytes the URL normalizer copies: the reserved and unreserved
    characters of RFC 3986 other than the single quote and the
    parentheses, and a percent sign that starts a valid escape. *)
Definition urlKeeps (c : ascii) (rest : string) : bool :=
  let n := nat_of_ascii c in
  if existsb (Ascii.eqb c)
       ["!"; "#"; "$"; "&"; "*"; "+"; ","; "/"; ":"; ";"; "="; "?"; "@"; "[";
        "]"; "-"; "."; "_"; "~"]%char
  then true
  else if (c =? "%")%char then
    match rest with
    | String h1 (String h2 _) => isHex h1 && isHex h2
    | _ => false
    end
  else inRange 97 122 n || inRange 65 90 n
       || inRange 48 57 n.

Fixpoint urlNormalizer (s : string) : string :=
  match s with
  | EmptyString => ""
  | String c rest =>
      if urlKeeps c rest then String c (urlNormalizer rest)
      else percentEncode c ++ urlNormalizer rest
  end.

Definition toLowerASCII (c : ascii) : ascii :=
  let n := nat_of_ascii c in
  if inRange 65 90 n then ascii_of_nat (n + 32) else c.

(** [strings.EqualFold(s, word)] for a [word] of lower-case ASCII letters:
    equality under simple Unicode case folding.  A letter of [word] is
    matched by itself in either case; besides, U+017F (long s, the bytes
    C5 BF) folds to s and U+212A (Kelvin sign, the bytes E2 84 AA) to k. *)
Fixpoint equalFold (s word : string) {struct word} : bool :=
  match word with
  | EmptyString => s =? ""
  | String c word' =>
      match s with
      | EmptyString => false
      | String x s' =>
          if (toLowerASCII x =? c)%char then equalFold s' word'
          else if (c =? "s")%char && Nat.eqb (nat_of_ascii x) 197 then
            match s' with
            | String y s'' => Nat.eqb (nat_of_ascii y) 191 && equalFold s'' word'
            | EmptyString => false
            end
          else if (c =? "k")%char && Nat.eqb (nat_of_ascii x) 226 then
            match s' with
            | String y (String z s'') =>
                Nat.eqb (nat_of_ascii y) 132 && Nat.eqb (nat_of_ascii z) 170
                && equalFold s'' word'
            | _ => false
            end
          else false
      end
  end.

(** The part of [s] before its first colon, when it has one. *)
Fixpoint beforeColon (s : string) : option string :=
  match s with
  | EmptyString => None
  | String c rest =>
      if (c =? ":")%char then Some ""
      else option_map (String c) (beforeColon rest)
  end.

(** A URL is unsafe when it names a protocol (the text before the first
    colon, free of slashes) other than http, https and mailto, compared
    with [strings.EqualFold]. *)
Definition isSafeURL (s : string) : bool :=
  match beforeColon s with
  | Some protocol =>
      if strings.Contains protocol "/" then true
      else
        equalFold protocol "http" || equalFold protocol "https"
        || equalFold protocol "mailto"
  | None => true
  end.

Definition urlFilter (s : string) : string :=
  if isSafeURL s then s else "#ZgotmplZ".

(** The escaping of [{{.Name}}] after [href=]: the start of a URL in an
    unquoted attribute value. *)
Definition escapeHref (s : string) : string :=
  htmlNospaceEscaper (urlNormalizer (urlFilter s)).

End template.

(** ** Package io/ioutil *)

Module ioutil.

(** [ioutil.ReadDir] returns the entries of the directory sorted by file
    name ([list[i].Name() < list[j].Name()], a byte-wise comparison).  The
    names in one directory are distinct, so the sorted list does not depend
    on the sorting algorithm; insertion is used here. *)
Fixpoint insertByName (x : os.FileInfo) (l : list os.FileInfo) : list os.FileInfo :=
  match l with
  | [] => [x]
  | y :: rest =>
      if (os.Name x <=? os.Name y) then x :: y :: rest
      else y :: insertByName x rest
  end.

Fixpoint sortByName (l : list os.FileInfo) : list os.FileInfo :=
  match l with
  | [] => []
  | x :: rest => insertByName x (sortByName rest)
  end.

End ioutil.

(** ** The listing types and the page template *)

Record entry : Type := mkEntry {
  Name : string;
  IsDir : bool
}.

Record dirList : Type := mkDirList {
  LocalPath : string;
  RequestPath : string;
  Entries : list entry
}.

Section Template.

Import template.

(** The pieces of output written one after the other. *)
Fixpoint concatAll (pieces : list string) : string :=
  match pieces with
  | [] => ""
  | piece :: rest => piece ++ concatAll rest
  end.

Definition line (indent : nat) (text : string) : string :=
  concatAll (repeat tab indent) ++ text ++ nl.

(** The text of [html] before [{{range .}}]. *)
Definition html_head : string :=
  line 0 "<!DOCTYPE html>" ++
  line 0 "<html>" ++
  line 0 "<head>" ++
  line 1 ("<meta charset=" ++ dq ++ "UTF-8" ++ dq ++ ">") ++
  line 1 "<style>" ++
  line 2 "body {" ++
  line 3 "font-size: 14px;" ++
  line 3 ("font-family: consolas, " ++ dq ++ "Liberation Mono" ++ dq ++ ", "
          ++ dq ++ "DejaVu Sans Mono" ++ dq ++ ", Menlo, monospace;") ++
  line 2 "}" ++
  line 2 "a {" ++
  line 3 "display: block;" ++
  line 3 "color: blue;" ++
  line 3 "text-decoration: none;" ++
  line 2 "}" ++
  line 2 "a:hover {" ++
  line 3 "background-color: #f3f3f3;" ++
  line 2 "}" ++
  line 2 ".req-path {" ++
  line 3 "color: #bbb;" ++
  line 2 "}" ++
  line 1 "</style>" ++
  line 0 "</head>" ++
  line 0 "<body>" ++
  tab.

(** The text of [html] after the last [{{end}}]. *)
Definition html_tail : string :=
  nl ++ line 0 "</body>".

(** One iteration of [{{range .Entries}}]. *)
Definition executeEntry (e : entry) : string :=
  nl ++ tab ++ tab ++ tab ++
  "<a class=" ++ dq ++ "entry" ++ (if IsDir e then " dir" else "") ++ dq ++
  " href=" ++ escapeHref (Name e) ++ ">" ++
  htmlEscaper (Name e) ++ (if IsDir e then "/" else "") ++ "</a>" ++
  nl ++ tab ++ tab.

(** One iteration of [{{range .}}]. *)
Definition executeDirList (d : dirList) : string :=
  nl ++ line 2 "<h3>" ++
  tab ++ tab ++ tab ++
  "<span class=local-path>" ++ htmlEscaper (LocalPath d) ++ "</span>" ++
  "<span class=req-path>" ++ htmlEscaper (RequestPath d) ++ "</span>" ++ nl ++
  line 2 "</h3>" ++
  tab ++ tab ++
  concatAll (map executeEntry (Entries d)) ++
  nl ++ tab.

(** The bytes [htmlTmpl.Execute(w, dirLists)] writes. *)
Definition htmlTmpl_Execute (dirLists : list dirList) : string :=
  html_head ++ concatAll (map executeDirList dirLists) ++ html_tail.

End Template.

(** ** The handler *)

Section Handler.

Variable sys : Host.
Variable flags : Flags.

Definition os_Stat (path : string) : M (result os.FileInfo) :=
  access (AccStat path) ;; ret (Stat sys path).

Definition os_Open (path : string) : M (result os.File) :=
  access (AccOpen path) ;; ret (Open sys path).

Definition ioutil_ReadDir (dirname : string) : M (result (list os.FileInfo)) :=
  access (AccReadDir dirname) ;;
  ret (match Readdir sys dirname with
       | Ok list => Ok (ioutil.sortByName list)
       | Err e => Err e
       end).

Definition http_ServeContent (r : Request) (name : string) (modtime : Z)
    (content : os.File) : M unit :=
  onResponse (ServeContent sys r name modtime content).

Definition tryFile (r : Request) (filePath : string) : M bool :=
  st <- os_Stat filePath ;;
  match st with
  | Err _ => ret false
  | Ok stat =>
      if os.IsDir stat then ret false
      else
        fl <- os_Open filePath ;;
        match fl with
        | Err _ => ret false
        | Ok file =>
            when (verbose flags)
              (log (Printf "%s ← %s" [RemoteAddr r; filePath])) ;;
            http_ServeContent r (os.Name stat) (os.ModTime stat) file ;;
            ret true
        end
  end.

Fixpoint tryFiles (r : Request) (dirs : list string) : M bool :=
  match dirs with
  | [] => ret false
  | dir :: rest =>
      let filePath := filepath.Join [dir; URL_Path r] in
      let indexPath := filepath.Join [filePath; "index.html"] in
      served <- tryFile r filePath ;;
      if served then ret true
      else
        served' <- tryFile r indexPath ;;
        if served' then ret true else tryFiles r rest
  end.

(** The message [log.Println] prints for an error value. *)
Definition errorText {A : Type} (res : result A) : string :=
  match res with
  | Ok _ => "<nil>"
  | Err e => e
  end.

Definition staticIndex (r : Request) : M bool :=
  fl <- os_Open (index flags) ;;
  st <- os_Stat (index flags) ;;
  match fl, st with
  | Ok file, Ok stat =>
      http_ServeContent r (os.Name stat) (os.ModTime stat) file ;;
      ret true
  | _, _ =>
      log (Println [errorText fl]) ;;
      ret false
  end.

(** The inner loop of [tryDirs]: the entries of one directory, appended
    after those collected so far. *)
Fixpoint appendEntries (entries : list entry) (dirInfo : list os.FileInfo)
  : list entry :=
  match dirInfo with
  | [] => entries
  | file :: rest =>
      appendEntries (entries ++ [mkEntry (os.Name file) (os.IsDir file)])%list rest
  end.

(** The outer loop of [tryDirs] over [dirs], from the values [dirLists]
    and [found] have when it is entered. *)
Fixpoint collectDirs (r : Request) (dirs : list string)
    (dirLists : list dirList) (found : bool) : M (list dirList * bool) :=
  match dirs with
  | [] => ret (dirLists, found)
  | dir :: rest =>
      let dirPath := filepath.Join [dir; URL_Path r] in
      res <- ioutil_ReadDir dirPath ;;
      match res with
      | Err _ => collectDirs r rest dirLists found
      | Ok dirInfo =>
          let entries := appendEntries [mkEntry ".." true] dirInfo in
          collectDirs r rest
            (dirLists ++ [mkDirList dir (URL_Path r) entries])%list true
      end
  end.

Definition tryDirs (r : Request) (dirs : list string) : M bool :=
  collected <- collectDirs r dirs [] false ;;
  let (dirLists, found) := collected in
  when found
    (http.Header_Set "Content-Type" "text/html; charset=utf-8" ;;
     http.Write (htmlTmpl_Execute dirLists)) ;;
  ret found.

(** The function [makeHandler(dirs)] returns. *)
Definition handler (dirs : list string) (r : Request) : M unit :=
  let server := "serve/" ++ version in
  http.Header_Set "Server" server ;;
  when (verbose flags)
    (log (Printf "%s → %s %s %s"
            [RemoteAddr r; Method r; URL_Path r; Method r])) ;;
  if negb (validRequest r) then
    http.Error "invalid path" http.StatusBadRequest ;;
    log (Printf "invalid path: %s" [URL_Path r])
  else
    served <- tryFiles r dirs ;;
    if served then ret tt
    else if negb (strings.Contains (Header_Get (Header r) "Accept") "text/html")
    then ret tt
    else
      fallback <- (if Nat.ltb 0 (String.length (index flags))
                   then staticIndex r else ret false) ;;
      if fallback then ret tt
      else
        listed <- (if negb (noList flags) then tryDirs r dirs else ret false) ;;
        if listed then ret tt
        else http.NotFound.

End Handler.

(** [serve] passes the directories given on the command line, and the
    current directory when none is given. *)
Definition serveDirs (args : list string) : list string :=
  match args with
  | [] => ["."]
  | _ => args
  end.

(** The state in which a request finds the handler: an empty response,
    nothing accessed, nothing logged. *)
Definition freshResponse : ResponseWriter := mkResponseWriter [] None "".
Definition fresh : World := mkWorld freshResponse [] [].

(** The response and the accesses of one request. *)
Definition respond (sys : Host) (flags : Flags) (dirs : list string)
    (r : Request) : World :=
  snd (handler sys flags dirs r fresh).

(** ** Pure readings of the passes, used to state their properties *)

(** The paths the file pass examines, in order: for each root the joined
    path, then that path with an [index.html] segment. *)
Definition candidates (dirs : list string) (path : string) : list string :=
  flat_map
    (fun dir =>
       let filePath := filepath.Join [dir; path] in
       [filePath; filepath.Join [filePath; "index.html"]])
    dirs.

(** A path resolves to a file that can be served: [os.Stat] succeeds and
    does not report a directory, and [os.Open] succeeds. *)
Definition servable (sys : Host) (path : string) : option (os.FileInfo * os.File) :=
  match Stat sys path with
  | Ok stat =>
      if os.IsDir stat then None
      else match Open sys path with
           | Ok file => Some (stat, file)
           | Err _ => None
           end
  | Err _ => None
  end.

(** The first servable path of a list, with the number of paths before it. *)
Fixpoint firstServable (sys : Host) (paths : list string)
  : option (nat * os.FileInfo * os.File) :=
  match paths with
  | [] => None
  | p :: rest =>
      match servable sys p with
      | Some (stat, file) => Some (0, stat, file)
      | None =>
          match firstServable sys rest with
          | Some (n, stat, file) => Some (S n, stat, file)
          | None => None
          end
      end
  end.

(** The paths of the [os.Stat] calls among some accesses, in order. *)
Fixpoint statPaths (l : list FsAccess) : list string :=
  match l with
  | [] => []
  | AccStat p :: rest => p :: statPaths rest
  | _ :: rest => statPaths rest
  end.

Definition entryOf (file : os.FileInfo) : entry :=
  mkEntry (os.Name file) (os.IsDir file).

Definition parentEntry : entry := mkEntry ".." true.

(** The listings of the roots whose directory can be enumerated, in the
    order of the roots. *)
Definition listingsOf (sys : Host) (path : string) (dirs : list string)
  : list dirList :=
  flat_map
    (fun dir =>
       match Readdir sys (filepath.Join [dir; path]) with
       | Ok raw =>
           [mkDirList dir path
              (parentEntry :: map entryOf (ioutil.sortByName raw))]
       | Err _ => []
       end)
    dirs.

(** File names in the order of [ioutil.ReadDir]. *)
Definition nameLe (a b : os.FileInfo) : Prop :=
  (os.Name a <=? os.Name b) = true.

(** The angle brackets of a page, which delimit its tags. *)
Definition isAngle (c : ascii) : bool := (c =? "<")%char || (c =? ">")%char.

Fixpoint angleBrackets (s : string) : string :=
  match s with
  | EmptyString => ""
  | String c rest =>
      if isAngle c then String c (angleBrackets rest)
      else angleBrackets rest
  end.

(** A listing with every name and path blanked. *)
Definition blankEntry (e : entry) : entry := mkEntry "" (IsDir e).
Definition blankDirList (d : dirList) : dirList :=
  mkDirList "" "" (map blankEntry (Entries d)).

(** The characters that end an unquoted attribute value or are errors
    inside one. *)
Definition breaksUnquotedAttr (c : ascii) : bool :=
  existsb (Nat.eqb (nat_of_ascii c)) [9; 10; 12; 13; 32; 34; 39; 60; 61; 62; 96].

(** The characters that open or close markup in element content. *)
Definition breaksText (c : ascii) : bool :=
  existsb (Nat.eqb (nat_of_ascii c)) [34; 39; 60; 62].

(** ** Example hosts *)

(** A file-system snapshot given by a table: what [os.Stat], [os.Open] and
    the directory enumeration answer for the paths listed; every other path
    does not exist. *)
Record Node : Type := mkNode {
  nodeStat : result os.FileInfo;
  nodeOpen : result os.File;
  nodeReaddir : result (list os.FileInfo)
}.

Fixpoint lookup (table : list (string * Node)) (path : string) : option Node :=
  match table with
  | [] => None
  | (p, n) :: rest => if p =? path then Some n else lookup rest path
  end.

Definition regularFile (name : string) (mtime : Z) (data : string) : Node :=
  mkNode (Ok (os.mkFileInfo name mtime false))
         (Ok (os.mkFile data))
         (Err "not a directory").

Definition directory (name : string) (mtime : Z) (raw : list os.FileInfo) : Node :=
  mkNode (Ok (os.mkFileInfo name mtime true))
         (Ok (os.mkFile ""))
         (Ok raw).

Definition noEntry {A : Type} : result A := Err "no such file or directory".

(** [http.ServeContent] for a request without range or precondition
    headers and a readable file: status 200 and the whole content. *)
Definition serveInFull (r : Request) (name : string) (modtime : Z)
    (content : os.File) (w : ResponseWriter) : ResponseWriter :=
  http.write (os.Contents content) (http.writeHeader http.StatusOK w).

Definition hostOf (table : list (string * Node)) : Host :=
  mkHost
    (fun p => match lookup table p with Some n => nodeStat n | None => noEntry end)
    (fun p => match lookup table p with Some n => nodeOpen n | None => noEntry end)
    (fun p => match lookup table p with Some n => nodeReaddir n | None => noEntry end)
    serveInFull.

Definition defaultFlags : Flags := mkFlags "localhost" "8080" "" false false.

Definition get (path accept : string) : Request :=
  mkRequest "127.0.0.1:40000" "GET" path [("Accept", accept)].

(** Roots [A] and [B], each with its own [foo.txt]; [A/sub] is a file and
    [B/sub] a directory enumerated as [b.txt], [a.txt]. *)
Definition twoRoots : Host :=
  hostOf
    [ ("A", directory "A" 1 [os.mkFileInfo "sub" 3 false; os.mkFileInfo "foo.txt" 2 false]);
      ("A/foo.txt", regularFile "foo.txt" 2 "from A");
      ("A/sub", regularFile "sub" 3 "a file");
      ("B", directory "B" 1 [os.mkFileInfo "foo.txt" 4 false; os.mkFileInfo "sub" 5 true]);
      ("B/foo.txt", regularFile "foo.txt" 4 "from B");
      ("B/sub", directory "sub" 5 [os.mkFileInfo "b.txt" 6 false; os.mkFileInfo "a.txt" 7 false]);
      ("B/sub/b.txt", regularFile "b.txt" 6 "b");
      ("B/sub/a.txt", regularFile "a.txt" 7 "a");
      ("spa.html", regularFile "spa.html" 8 "<app>") ].

(** The accesses one attempt of the file pass makes on a path: the stat,
    and the open when the stat reports a file. *)
Definition probe (sys : Host) (path : string) : list FsAccess :=
  match Stat sys path with
  | Ok stat => if os.IsDir stat then [AccStat path] else [AccStat path; AccOpen path]
  | Err _ => [AccStat path]
  end.

(** [tryFile] on each path of a list in turn, up to the first success. *)
Fixpoint tryEach (sys : Host) (flags : Flags) (r : Request) (paths : list string)
  : M bool :=
  match paths with
  | [] => ret false
  | p :: rest =>
      served <- tryFile sys flags r p ;;
      if served then ret true else tryEach sys flags r rest
  end.

(** What a successful [tryFile] on [path] leaves behind. *)
Definition served (sys : Host) (flags : Flags) (r : Request) (path : string)
    (stat : os.FileInfo) (file : os.File) (acc : list FsAccess) (s : World) : World :=
  mkWorld
    (ServeContent sys r (os.Name stat) (os.ModTime stat) file (resp s))
    (accesses s ++ acc)%list
    (if verbose flags
     then (logged s ++ [Printf "%s ← %s" [RemoteAddr r; path]])%list
     else logged s).

(** What a failed attempt leaves behind: only the accesses. *)
Definition missed (acc : list FsAccess) (s : World) : World :=
  mkWorld (resp s) (accesses s ++ acc)%list (logged s).

(** The accesses of the listing pass: one enumeration per root. *)
Definition readDirs (path : string) (dirs : list string) : list FsAccess :=
  map (fun dir => AccReadDir (filepath.Join [dir; path])) dirs.

Definition isEmpty {A : Type} (l : list A) : bool :=
  match l with [] => true | _ => false end.

(** The directory of a root under the request path can be enumerated. *)
Definition enumerates (sys : Host) (path : string) (dir : string) : bool :=
  match Readdir sys (filepath.Join [dir; path]) with
  | Ok _ => true
  | Err _ => false
  end.

(** The state in which the handler reaches the validation of the path: the
    [Server] header is set and, when verbose, the request is logged. *)
Definition entered (flags : Flags) (r : Request) : World :=
  mkWorld
    (http.setHeader "Server" ("serve/" ++ version) freshResponse)
    []
    (if verbose flags
     then [Printf "%s → %s %s %s" [RemoteAddr r; Method r; URL_Path r; Method r]]
     else []).

(** The rest of the handler, from the validation of the path on. *)
Definition resolve (sys : Host) (flags : Flags) (dirs : list string)
    (r : Request) : M unit :=
  if negb (validRequest r) then
    http.Error "invalid path" http.StatusBadRequest ;;
    log (Printf "invalid path: %s" [URL_Path r])
  else
    served <- tryFiles sys flags r dirs ;;
    if served then ret tt
    else if negb (strings.Contains (Header_Get (Header r) "Accept") "text/html")
    then ret tt
    else
      fallback <- (if Nat.ltb 0 (String.length (index flags))
                   then staticIndex sys flags r else ret false) ;;
      if fallback then ret tt
      else
        listed <- (if negb (noList flags) then tryDirs sys r dirs else ret false) ;;
        if listed then ret tt
        else http.NotFound.


(** No character of [s] satisfies [bad]. *)
Fixpoint noneOf (bad : ascii -> bool) (s : string) : bool :=
  match s with
  | EmptyString => true
  | String c rest => negb (bad c) && noneOf bad rest
  end.

(** [piece] is part of [s]: some text, then [piece], then some text. *)
Definition occursIn (piece s : string) : Prop :=
  exists before after, s = before ++ piece ++ after.

(** ** Pure readings of the whole handler *)

(** The accesses [staticIndex] makes: the open, then the stat. *)
Definition indexAccesses (flags : Flags) : list FsAccess :=
  [AccOpen (index flags); AccStat (index flags)].

(** What a failed [staticIndex] leaves behind: its two accesses and the
    line printed for the error of the open. *)
Definition indexFailed (flags : Flags) (fl : result os.File) (s : World) : World :=
  mkWorld (resp s) (accesses s ++ indexAccesses flags)%list
    (logged s ++ [Println [errorText fl]])%list.

(** The accesses a request is entitled to: the stat of a candidate of the
    file pass, the open of a candidate whose stat reports a file, the open
    and the stat of a configured fallback, and the enumeration of a root's
    directory when listings are enabled. *)
Definition allowedAccess (sys : Host) (flags : Flags) (dirs : list string)
    (r : Request) (a : FsAccess) : Prop :=
  match a with
  | AccStat p =>
      In p (candidates dirs (URL_Path r))
      \/ (p = index flags /\ index flags <> "")
  | AccOpen p =>
      (In p (candidates dirs (URL_Path r))
       /\ exists stat, Stat sys p = Ok stat /\ os.IsDir stat = false)
      \/ (p = index flags /\ index flags <> "")
  | AccReadDir p =>
      noList flags = false
      /\ exists dir, In dir dirs /\ p = filepath.Join [dir; URL_Path r]
  end.

Definition isReadDir (a : FsAccess) : bool :=
  match a with
  | AccReadDir _ => true
  | _ => false
  end.

(** The reply of [http.NotFound] on a response [w]. *)
Definition notFoundReply (w : ResponseWriter) : ResponseWriter :=
  http.write ("404 page not found" ++ template.nl)
    (http.writeHeader http.StatusNotFound
       (http.setHeader "X-Content-Type-Options" "nosniff"
          (http.setHeader "Content-Type" "text/plain; charset=utf-8" w))).

(** The fallback is not served: none is configured, or it cannot be opened,
    or it cannot be stat'ed. *)
Definition noFallback (sys : Host) (flags : Flags) : Prop :=
  index flags = ""
  \/ (exists e, Open sys (index flags) = Err e)
  \/ (exists e, Stat sys (index flags) = Err e).

(** The lines the handler logs whatever the verbosity: the rejection of an
    invalid path, and the error of the open of a fallback that is not
    served. *)
Definition alwaysLogged (sys : Host) (flags : Flags) (r : Request)
    (l : LogCall) : Prop :=
  l = Printf "invalid path: %s" [URL_Path r]
  \/ l = Println [errorText (Open sys (index flags))].

(** [http.ServeContent] leaves the [Server] header as it finds it. *)
Definition keepsServer (sys : Host) : Prop :=
  forall r name modtime file w,
    Header_Get (header (ServeContent sys r name modtime file w)) "Server"
    = Header_Get (header w) "Server".

(** The state [s2] in which the handler goes on after the state [s1] when
    the fallback is not served: unchanged when no fallback is configured,
    and after the failed attempt otherwise. *)
Definition fallbackSkipped (sys : Host) (flags : Flags) (s1 s2 : World) : Prop :=
  (index flags = "" /\ s2 = s1)
  \/ (index flags <> ""
      /\ ((exists e, Open sys (index flags) = Err e)
          \/ (exists e, Stat sys (index flags) = Err e))
      /\ s2 = indexFailed flags (Open sys (index flags)) s1).

(** The world after [http.NotFound]. *)
Definition notFound (s : World) : World :=
  mkWorld (notFoundReply (resp s)) (accesses s) (logged s).

(** The world after the page of [listings] has been written. *)
Definition listed (listings : list dirList) (acc : list FsAccess) (s : World)
  : World :=
  mkWorld
    (http.write (htmlTmpl_Execute listings)
       (http.setHeader "Content-Type" "text/html; charset=utf-8" (resp s)))
    (accesses s ++ acc)%list
    (logged s).

(** The world after the rejection of an invalid path. *)
Definition rejected (r : Request) (s : World) : World :=
  mkWorld
    (http.write ("invalid path" ++ template.nl)
       (http.writeHeader http.StatusBadRequest
          (http.setHeader "X-Content-Type-Options" "nosniff"
             (http.setHeader "Content-Type" "text/plain; charset=utf-8"
                (resp s)))))
    (accesses s)
    (logged s ++ [Printf "invalid path: %s" [URL_Path r]])%list.

(** The accesses of a request in the order of the passes: the probes of the
    first [k] candidates, then [idx], the accesses to the fallback, then
    [reads], the enumerations of the listing pass. *)
Definition passAccesses (sys : Host) (paths : list string) (k : nat)
    (idx reads : list FsAccess) : list FsAccess :=
  (flat_map (probe sys) (firstn k paths) ++ idx ++ reads)%list.

(** ** Paths by their elements *)

(** An element [Clean] keeps when it meets it: neither empty nor ".". *)
Definition keptElement (e : string) : bool := negb ((e =? "") || (e =? ".")).

(** The elements of the cleaned form of a path. *)
Definition cleanedElements (path : string) : list string :=
  filepath.cleanElements (prefix "/" path) [] (filepath.elementsFrom "" path).

(** The path made of some elements, rooted or not. *)
Definition pathOf (rooted : bool) (elems : list string) : string :=
  let out := String.concat "/" elems in
  if rooted then "/" ++ out
  else if out =? "" then "." else out.

(** The character [c] occurs in [s]. *)
Fixpoint mentions (c : ascii) (s : string) : bool :=
  match s with
  | EmptyString => false
  | String x rest => (x =? c)%char || mentions c rest
  end.

(** ** Reading back what the template writes *)

(** [p] is the beginning of [s]. *)
Fixpoint startsWith (p s : string) {struct p} : bool :=
  match p with
  | EmptyString => true
  | String a p' =>
      match s with
      | EmptyString => false
      | String b s' => (a =? b)%char && startsWith p' s'
      end
  end.

(** The character reference at the beginning of [s], among those the
    escaper of element content writes: the character it stands for and its
    length. *)
Definition entityAt (s : string) : option (ascii * nat) :=
  if startsWith "&lt;" s then Some ("<"%char, 4)
  else if startsWith "&gt;" s then Some (">"%char, 4)
  else if startsWith "&amp;" s then Some ("&"%char, 5)
  else if startsWith "&#34;" s then Some (ascii_of_nat 34, 5)
  else if startsWith "&#39;" s then Some ("'"%char, 5)
  else if startsWith "&#43;" s then Some ("+"%char, 5)
  else None.

(** The text a reader of the page sees for element content [s]: every
    character reference is replaced by its character; [skip] counts the
    characters of a reference still to be passed over. *)
Fixpoint decodeFrom (skip : nat) (s : string) : string :=
  match s with
  | EmptyString => ""
  | String c rest =>
      match skip with
      | S k => decodeFrom k rest
      | O =>
          match entityAt s with
          | Some (ch, len) => String ch (decodeFrom (Nat.pred len) rest)
          | None => String c (decodeFrom 0 rest)
          end
      end
  end.

Definition unescapeText (s : string) : string := decodeFrom 0 s.

(** The unreserved characters of a URL: letters, digits, and - . _ ~ *)
Definition unreserved (c : ascii) : bool :=
  let n := nat_of_ascii c in
  template.inRange 97 122 n || template.inRange 65 90 n
  || template.inRange 48 57 n
  || existsb (Nat.eqb n) [45; 46; 95; 126].

(** A name made of unreserved characters only. *)
Definition plainName (s : string) : bool :=
  noneOf (fun c => negb (unreserved c)) s.

(** ** A host that serves ranges *)





(** * Properties *)

(** ** Strings *)

Lemma append_nil_r (s : string) : s ++ "" = s.
Proof. induction s as [|c s IH]; simpl; [reflexivity | now rewrite IH]. Qed.

Lemma append_assoc (a b c : string) : (a ++ b) ++ c = a ++ (b ++ c).
Proof. induction a as [|x a IH]; simpl; [reflexivity | now rewrite IH]. Qed.

Lemma append_snoc (a : string) (c : ascii) (b : string) :
  (a ++ String c "") ++ b = a ++ String c b.
Proof. now rewrite append_assoc. Qed.

Lemma prefix_append (sub rest : string) : prefix sub (sub ++ rest) = true.
Proof.
  induction sub as [|c sub IH]; simpl.
  - now destruct rest.
  - destruct (ascii_dec c c) as [_|n]; [exact IH | now elim n].
Qed.

Lemma Contains_prefix (s sub : string) :
  prefix sub s = true -> strings.Contains s sub = true.
Proof. intros H. destruct s; simpl in *; rewrite H; reflexivity. Qed.

Lemma Contains_tail (c : ascii) (s sub : string) :
  strings.Contains s sub = true -> strings.Contains (String c s) sub = true.
Proof.
  intros H. change (strings.Contains (String c s) sub)
    with (prefix sub (String c s) || strings.Contains s sub).
  rewrite H. apply orb_true_r.
Qed.

Lemma Contains_append_l (pre s sub : string) :
  strings.Contains s sub = true -> strings.Contains (pre ++ s) sub = true.
Proof.
  intros H. induction pre as [|c pre IH]; simpl append.
  - exact H.
  - now apply Contains_tail.
Qed.

(** ** Traversal validation *)

Lemma scanFields_false (fields : list string) :
  scanFields fields = false <-> In ".." fields.
Proof.
  induction fields as [|f rest IH]; simpl.
  - split; [discriminate | tauto].
  - destruct (String.eqb_spec f "..") as [->|ne].
    + split; auto.
    + rewrite IH. split; [auto | intros [e|i]; [now elim ne | exact i]].
Qed.

Lemma snoc_nonEmpty (cur : string) (c : ascii) :
  nonEmpty (cur ++ String c "") = true.
Proof. now destruct cur. Qed.

(** The fields of [FieldsFunc] are the non-empty tokens. *)
Lemma fieldsFrom_splitFrom (s : string) :
  (forall cur, nonEmpty cur = true ->
     strings.fieldsFrom isSlashRune (Some cur) s
     = filter nonEmpty (splitFrom cur s))
  /\ strings.fieldsFrom isSlashRune None s = filter nonEmpty (splitFrom "" s).
Proof.
  induction s as [|c s [IHsome IHnone]]; split; simpl.
  - intros cur ->. reflexivity.
  - reflexivity.
  - intros cur Hcur. destruct (isSlashRune c); simpl.
    + now rewrite Hcur, IHnone.
    + apply IHsome, snoc_nonEmpty.
  - destruct (isSlashRune c); simpl.
    + exact IHnone.
    + apply (IHsome (String c "")). reflexivity.
Qed.

Lemma FieldsFunc_tokens (path : string) :
  strings.FieldsFunc path isSlashRune = filter nonEmpty (tokens path).
Proof. apply fieldsFrom_splitFrom. Qed.

Lemma dotdot_field_iff_token (path : string) :
  In ".." (strings.FieldsFunc path isSlashRune) <-> In ".." (tokens path).
Proof.
  rewrite FieldsFunc_tokens, filter_In. split; [tauto | intros H; now split].
Qed.

(** A token is a piece of the path. *)
Lemma token_in_path (s cur tok : string) :
  In tok (splitFrom cur s) -> strings.Contains (cur ++ s) tok = true.
Proof.
  revert cur. induction s as [|c s IH]; intros cur; simpl.
  - intros [<-|[]]. apply Contains_prefix, prefix_append.
  - destruct (isSlashRune c); simpl.
    + intros [<-|H].
      * apply Contains_prefix, prefix_append.
      * apply Contains_append_l, Contains_tail. exact (IH "" H).
    + intros H. rewrite <- append_snoc. now apply IH.
Qed.

Lemma no_dotdot_no_field (path : string) :
  strings.Contains path ".." = false ->
  scanFields (strings.FieldsFunc path isSlashRune) = true.
Proof.
  intros H. destruct (scanFields _) eqn:E; [reflexivity|].
  apply scanFields_false, dotdot_field_iff_token in E.
  apply (token_in_path path "") in E. simpl in E. congruence.
Qed.

Lemma validRequest_scan (r : Request) :
  validRequest r = scanFields (strings.FieldsFunc (URL_Path r) isSlashRune).
Proof.
  unfold validRequest.
  destruct (strings.Contains (URL_Path r) "..") eqn:E; simpl; [reflexivity|].
  symmetry. now apply no_dotdot_no_field.
Qed.

(** C2. [validRequest] rejects a path exactly when one of its tokens, cut at
    forward and back slashes, is [".."]; a path none of whose tokens is
    [".."], whatever dots the tokens contain, is accepted. *)
Theorem validRequest_rejects_dotdot_token (r : Request) :
  (validRequest r = false <-> In ".." (tokens (URL_Path r)))
  /\ ((forall tok, In tok (tokens (URL_Path r)) -> tok <> "..") ->
      validRequest r = true).
Proof.
  assert (E : validRequest r = false <-> In ".." (tokens (URL_Path r))).
  { rewrite validRequest_scan, scanFields_false. apply dotdot_field_iff_token. }
  split; [exact E|].
  intros H. apply not_false_is_true. intros V.
  apply E in V. now elim (H ".." V).
Qed.

Lemma validRequest_rejects_dotdot_token_witness :
  validRequest (get "/a/../b" "*/*") = false
  /\ validRequest (get "/docs/a..b" "*/*") = true.
Proof.
  split.
  - apply (proj1 (validRequest_rejects_dotdot_token (get "/a/../b" "*/*"))).
    simpl. tauto.
  - apply (proj2 (validRequest_rejects_dotdot_token (get "/docs/a..b" "*/*"))).
    simpl. intros tok [<-|[<-|[<-|[]]]]; discriminate.
Defined.

(** C10. The fast path of [validRequest], which accepts at once a path with
    no [".."] substring, returns what the scan of the tokens of every path
    returns: the two formulations agree on every request. *)
Theorem validRequest_fast_path_equiv (r : Request) :
  validRequest r = validRequest_plain r.
Proof. apply validRequest_scan. Qed.

(** ** The file pass *)

Section FilePass.

Variable sys : Host.
Variable flags : Flags.
Variable r : Request.

Lemma missed_missed (a b : list FsAccess) (s : World) :
  missed b (missed a s) = missed (a ++ b) s.
Proof. unfold missed; simpl. now rewrite app_assoc. Qed.

Lemma served_missed (p : string) (stat : os.FileInfo) (file : os.File)
    (a b : list FsAccess) (s : World) :
  served sys flags r p stat file b (missed a s)
  = served sys flags r p stat file (a ++ b) s.
Proof. unfold served, missed; simpl. now rewrite app_assoc. Qed.

Lemma probe_servable (p : string) (stat : os.FileInfo) (file : os.File) :
  servable sys p = Some (stat, file) -> probe sys p = [AccStat p; AccOpen p].
Proof.
  unfold servable, probe. destruct (Stat sys p) as [st|]; [|discriminate].
  now destruct (os.IsDir st).
Qed.

Lemma statPaths_probe (p : string) : statPaths (probe sys p) = [p].
Proof.
  unfold probe. destruct (Stat sys p) as [st|]; [|reflexivity].
  now destruct (os.IsDir st).
Qed.

Lemma statPaths_app (a b : list FsAccess) :
  statPaths (a ++ b) = (statPaths a ++ statPaths b)%list.
Proof.
  induction a as [|[p|p|p] a IH]; simpl; [reflexivity | now rewrite IH | exact IH ..].
Qed.

Lemma statPaths_probes (paths : list string) :
  statPaths (flat_map (probe sys) paths) = paths.
Proof.
  induction paths as [|p rest IH]; simpl; [reflexivity|].
  now rewrite statPaths_app, statPaths_probe, IH.
Qed.

(** One attempt: a servable path is served from its own stat and file; any
    other path leaves the response as it was. *)
Lemma tryFile_spec (p : string) (s : World) :
  tryFile sys flags r p s =
  match servable sys p with
  | Some (stat, file) =>
      (true, served sys flags r p stat file [AccStat p; AccOpen p] s)
  | None => (false, missed (probe sys p) s)
  end.
Proof.
  unfold tryFile, servable, probe, os_Stat, os_Open, http_ServeContent,
    served, missed, when, log, access, onResponse, bind, ret.
  simpl.
  destruct (Stat sys p) as [st|e]; [|reflexivity].
  destruct (os.IsDir st); [reflexivity|]. simpl.
  destruct (Open sys p) as [f|e]; [|now rewrite <- app_assoc].
  destruct (verbose flags); simpl; now rewrite <- app_assoc.
Qed.

Lemma tryEach_spec (paths : list string) (s : World) :
  tryEach sys flags r paths s =
  match firstServable sys paths with
  | Some (n, stat, file) =>
      (true, served sys flags r (nth n paths "") stat file
               (flat_map (probe sys) (firstn (S n) paths)) s)
  | None => (false, missed (flat_map (probe sys) paths) s)
  end.
Proof.
  revert s. induction paths as [|p rest IH]; intros s.
  - unfold missed. simpl. rewrite app_nil_r. now destruct s.
  - cbn [tryEach firstServable]. unfold bind. rewrite tryFile_spec.
    destruct (servable sys p) as [[stat file]|] eqn:E.
    + cbn [firstn flat_map nth]. rewrite app_nil_r.
      now rewrite (probe_servable _ _ _ E).
    + rewrite IH. destruct (firstServable sys rest) as [[[n stat] file]|].
      * now rewrite served_missed.
      * now rewrite missed_missed.
Qed.

(** The loop of [tryFiles] is [tryFile] over the interleaved candidates. *)
Lemma tryFiles_tryEach (dirs : list string) (s : World) :
  tryFiles sys flags r dirs s
  = tryEach sys flags r (candidates dirs (URL_Path r)) s.
Proof.
  revert s. induction dirs as [|dir rest IH]; intros s; [reflexivity|].
  cbn [tryFiles candidates flat_map app tryEach]. unfold bind.
  destruct (tryFile sys flags r _ s) as [[|] s1]; [reflexivity|].
  destruct (tryFile sys flags r _ s1) as [[|] s2]; [reflexivity|].
  apply IH.
Qed.

Lemma tryFiles_spec (dirs : list string) (s : World) :
  tryFiles sys flags r dirs s =
  let paths := candidates dirs (URL_Path r) in
  match firstServable sys paths with
  | Some (n, stat, file) =>
      (true, served sys flags r (nth n paths "") stat file
               (flat_map (probe sys) (firstn (S n) paths)) s)
  | None => (false, missed (flat_map (probe sys) paths) s)
  end.
Proof. rewrite tryFiles_tryEach. apply tryEach_spec. Qed.

(** [firstServable] is the first: the path at the position it returns is
    servable and none before it is. *)
Lemma firstServable_first (paths : list string) (n : nat)
    (stat : os.FileInfo) (file : os.File) :
  firstServable sys paths = Some (n, stat, file) ->
  servable sys (nth n paths "") = Some (stat, file)
  /\ forall k, k < n -> servable sys (nth k paths "") = None.
Proof.
  revert n. induction paths as [|p rest IH]; intros n; [discriminate|].
  simpl. destruct (servable sys p) as [[st f]|] eqn:E.
  - intros [= <- <- <-]. split; [exact E | intros k Hk; lia].
  - destruct (firstServable sys rest) as [[[m st] f]|]; [|discriminate].
    intros [= <- <- <-]. destruct (IH m eq_refl) as [Hn Hbefore].
    split; [exact Hn|]. intros [|k] Hk; [exact E | apply Hbefore; lia].
Qed.

Lemma firstServable_none (paths : list string) :
  firstServable sys paths = None ->
  forall p, In p paths -> servable sys p = None.
Proof.
  induction paths as [|q rest IH]; simpl; [tauto|].
  destruct (servable sys q) as [[st f]|] eqn:E; [discriminate|].
  destruct (firstServable sys rest) as [[[m st] f]|]; [discriminate|].
  intros _ p [<-|H]; [exact E | now apply IH].
Qed.

End FilePass.

(** C1. The file pass examines, root by root in the order of the roots, the
    joined path and then that path with an [index.html] segment, and serves
    the first of these paths that resolves to a file: the response is the
    content served from that path's stat and file, no earlier path is
    servable, and the paths stat'ed are exactly the candidates up to and
    including that one, in order.  When no candidate resolves to a file the
    pass reports no match, leaves the response untouched and has stat'ed
    every candidate in order. *)
Theorem file_pass_first_match (sys : Host) (flags : Flags) (r : Request)
    (dir : string) (dirs : list string) (s : World) :
  candidates (dir :: dirs) (URL_Path r)
  = filepath.Join [dir; URL_Path r]
    :: filepath.Join [filepath.Join [dir; URL_Path r]; "index.html"]
    :: candidates dirs (URL_Path r)
  /\
  let paths := candidates (dir :: dirs) (URL_Path r) in
  let out := tryFiles sys flags r (dir :: dirs) s in
  match firstServable sys paths with
  | Some (n, stat, file) =>
      fst out = true
      /\ resp (snd out)
         = ServeContent sys r (os.Name stat) (os.ModTime stat) file (resp s)
      /\ servable sys (nth n paths "") = Some (stat, file)
      /\ (forall k, k < n -> servable sys (nth k paths "") = None)
      /\ exists acc, accesses (snd out) = (accesses s ++ acc)%list
                     /\ statPaths acc = firstn (S n) paths
  | None =>
      fst out = false
      /\ resp (snd out) = resp s
      /\ exists acc, accesses (snd out) = (accesses s ++ acc)%list
                     /\ statPaths acc = paths
  end.
Proof.
  split; [reflexivity|].
  intros paths out. subst out. rewrite tryFiles_spec. cbv zeta. fold paths.
  destruct (firstServable sys paths) as [[[n stat] file]|] eqn:E.
  - destruct (firstServable_first sys paths n stat file E) as [Hn Hbefore].
    repeat split; try assumption.
    eexists. split; [reflexivity | apply statPaths_probes].
  - repeat split. eexists. split; [reflexivity | apply statPaths_probes].
Qed.

Lemma file_pass_first_match_witness :
  resp (snd (tryFiles twoRoots defaultFlags (get "/foo.txt" "*/*") ["A"; "B"] fresh))
  = serveInFull (get "/foo.txt" "*/*") "foo.txt" 2 (os.mkFile "from A") freshResponse.
Proof.
  pose proof (proj2 (file_pass_first_match twoRoots defaultFlags
                       (get "/foo.txt" "*/*") "A" ["B"] fresh)) as H.
  vm_compute in H. destruct H as (_ & H & _). vm_compute. exact H.
Defined.

(** With roots [A] and [B] that both hold [foo.txt], a request for
    [/foo.txt] is answered with the content of [A]'s file, and [B] is not
    even looked at. *)
Example first_root_wins :
  let w := respond twoRoots defaultFlags ["A"; "B"] (get "/foo.txt" "*/*") in
  body (resp w) = "from A"
  /\ http.statusSent (resp w) = 200
  /\ accesses w = [AccStat "A/foo.txt"; AccOpen "A/foo.txt"].
Proof. vm_compute. repeat split. Qed.

(** ** The listing pass *)

Section ListingPass.

Variable sys : Host.
Variable r : Request.

Lemma appendEntries_map (entries : list entry) (dirInfo : list os.FileInfo) :
  appendEntries entries dirInfo = (entries ++ map entryOf dirInfo)%list.
Proof.
  revert entries. induction dirInfo as [|file rest IH]; intros entries; simpl.
  - now rewrite app_nil_r.
  - rewrite IH, <- app_assoc. reflexivity.
Qed.

(** The loop of [tryDirs] adds the listings of the roots that can be
    enumerated, in the order of the roots, and nothing for the others. *)
Lemma collectDirs_spec (dirs : list string) (dirLists : list dirList)
    (found : bool) (s : World) :
  collectDirs sys r dirs dirLists found s =
  ((dirLists ++ listingsOf sys (URL_Path r) dirs,
    found || negb (isEmpty (listingsOf sys (URL_Path r) dirs)))%list,
   missed (readDirs (URL_Path r) dirs) s).
Proof.
  revert dirLists found s.
  induction dirs as [|dir rest IH]; intros dirLists found s.
  - unfold missed. simpl. rewrite !app_nil_r, orb_false_r. now destruct s.
  - cbn [collectDirs listingsOf flat_map readDirs map].
    cbv beta iota delta [bind ioutil_ReadDir access ret].
    fold (listingsOf sys (URL_Path r) rest).
    destruct (Readdir sys (filepath.Join [dir; URL_Path r])) as [raw|e];
      rewrite IH; unfold missed; cbn [resp accesses logged app isEmpty negb];
      rewrite <- !app_assoc.
    + rewrite appendEntries_map, !orb_true_r. reflexivity.
    + reflexivity.
Qed.

Lemma tryDirs_spec (dirs : list string) (s : World) :
  tryDirs sys r dirs s =
  let listings := listingsOf sys (URL_Path r) dirs in
  if isEmpty listings then (false, missed (readDirs (URL_Path r) dirs) s)
  else
    (true,
     mkWorld
       (http.write (htmlTmpl_Execute listings)
          (http.setHeader "Content-Type" "text/html; charset=utf-8" (resp s)))
       (accesses s ++ readDirs (URL_Path r) dirs)%list
       (logged s)).
Proof.
  unfold tryDirs, bind. rewrite collectDirs_spec. simpl.
  destruct (listingsOf sys (URL_Path r) dirs); reflexivity.
Qed.

End ListingPass.

(** ** The order of [ioutil.ReadDir] *)

Lemma insertByName_perm (x : os.FileInfo) (l : list os.FileInfo) :
  Permutation (x :: l) (ioutil.insertByName x l).
Proof.
  induction l as [|y rest IH]; simpl; [reflexivity|].
  destruct (os.Name x <=? os.Name y); [reflexivity|].
  rewrite perm_swap. now apply perm_skip.
Qed.

Lemma sortByName_perm (l : list os.FileInfo) :
  Permutation l (ioutil.sortByName l).
Proof.
  induction l as [|x rest IH]; simpl; [constructor|].
  rewrite <- insertByName_perm. now apply perm_skip.
Qed.

Lemma insertByName_hd (a x : os.FileInfo) (l : list os.FileInfo) :
  nameLe a x -> HdRel nameLe a l -> HdRel nameLe a (ioutil.insertByName x l).
Proof.
  intros Hax Hl. destruct l as [|y rest]; simpl.
  - now constructor.
  - destruct (os.Name x <=? os.Name y); constructor; [assumption|].
    now inversion Hl.
Qed.

Lemma insertByName_sorted (x : os.FileInfo) (l : list os.FileInfo) :
  Sorted nameLe l -> Sorted nameLe (ioutil.insertByName x l).
Proof.
  induction 1 as [|y rest Hsorted IH Hhd]; simpl.
  - repeat constructor.
  - destruct (os.Name x <=? os.Name y) eqn:E.
    + constructor; [now constructor | now constructor].
    + constructor; [exact IH|].
      apply insertByName_hd; [|exact Hhd].
      unfold nameLe. destruct (String.leb_total (os.Name x) (os.Name y)); congruence.
Qed.

Lemma sortByName_sorted (l : list os.FileInfo) :
  Sorted nameLe (ioutil.sortByName l).
Proof.
  induction l as [|x rest IH]; simpl; [constructor|].
  now apply insertByName_sorted.
Qed.

(** Every listing the pass produces belongs to a root whose directory was
    enumerated, and holds the parent entry followed by that directory's
    entries in the order of [ioutil.ReadDir]. *)
Lemma listingsOf_In (sys : Host) (path : string) (dirs : list string) (d : dirList) :
  In d (listingsOf sys path dirs) ->
  In (LocalPath d) dirs
  /\ RequestPath d = path
  /\ exists raw,
       Readdir sys (filepath.Join [LocalPath d; path]) = Ok raw
       /\ Entries d = parentEntry :: map entryOf (ioutil.sortByName raw).
Proof.
  unfold listingsOf. rewrite in_flat_map. intros (dir & Hdir & Hd).
  destruct (Readdir sys (filepath.Join [dir; path])) as [raw|e] eqn:E; [|contradiction].
  destruct Hd as [<-|[]]. simpl. repeat split; [assumption|]. now exists raw.
Qed.

(** The roots that contribute a listing are those that enumerate, in the
    order of the roots. *)
Lemma listingsOf_roots (sys : Host) (path : string) (dirs : list string) :
  map LocalPath (listingsOf sys path dirs) = filter (enumerates sys path) dirs.
Proof.
  unfold listingsOf, enumerates.
  induction dirs as [|dir rest IH]; [reflexivity|].
  cbn [flat_map filter]. rewrite map_app, IH.
  now destruct (Readdir sys (filepath.Join [dir; path])).
Qed.

(** C4, as amended.  In every listing handed to the template the parent
    entry (name [".."], a directory) comes first, also when the directory
    is empty, and the entries of the directory follow in the order
    [ioutil.ReadDir] returns them: sorted by file name, whatever the order
    in which the file system enumerates them.  [tryDirs] does not reorder
    them further. *)
Theorem listing_parent_first_then_sorted (sys : Host) (r : Request)
    (dirs : list string) (s : World) (d : dirList) :
  In d (fst (fst (collectDirs sys r dirs [] false s))) ->
  exists raw files,
    Readdir sys (filepath.Join [LocalPath d; URL_Path r]) = Ok raw
    /\ Entries d = mkEntry ".." true :: map entryOf files
    /\ Permutation raw files
    /\ Sorted nameLe files
    /\ (raw = [] -> Entries d = [mkEntry ".." true]).
Proof.
  rewrite collectDirs_spec. simpl. intros H.
  apply listingsOf_In in H as (_ & _ & raw & Hraw & Hentries).
  exists raw, (ioutil.sortByName raw). repeat split.
  - exact Hraw.
  - exact Hentries.
  - apply sortByName_perm.
  - apply sortByName_sorted.
  - intros ->. exact Hentries.
Qed.

Lemma listing_parent_first_then_sorted_witness :
  exists raw files,
    Readdir twoRoots "B/sub" = Ok raw
    /\ [mkEntry ".." true; mkEntry "a.txt" false; mkEntry "b.txt" false]
       = mkEntry ".." true :: map entryOf files
    /\ Permutation raw files
    /\ Sorted nameLe files
    /\ (raw = [] ->
        [mkEntry ".." true; mkEntry "a.txt" false; mkEntry "b.txt" false]
        = [mkEntry ".." true]).
Proof.
  apply (listing_parent_first_then_sorted twoRoots (get "/sub" "text/html")
           ["A"; "B"] fresh
           (mkDirList "B" "/sub"
              [mkEntry ".." true; mkEntry "a.txt" false; mkEntry "b.txt" false])).
  vm_compute. left. reflexivity.
Defined.

(** C4, as stated, fails: the directory [B/sub] is enumerated by the file
    system as [b.txt], [a.txt], and its listing reads [..], [a.txt],
    [b.txt]. *)
Lemma listing_keeps_raw_order_counterexample :
  Readdir twoRoots (filepath.Join ["B"; "/sub"])
  = Ok [os.mkFileInfo "b.txt" 6 false; os.mkFileInfo "a.txt" 7 false]
  /\ map (fun d => map Name (Entries d))
       (fst (fst (collectDirs twoRoots (get "/sub" "text/html") ["B"] [] false fresh)))
     = [[".."; "a.txt"; "b.txt"]]
  /\ [".."; "a.txt"; "b.txt"] <> [".."; "b.txt"; "a.txt"].
Proof. vm_compute. repeat split. discriminate. Qed.

(** C5.  The file pass never matches a directory: whatever [tryFile]
    serves has a stat that does not report a directory, so the directory
    that root [B] holds under the requested name is not served as a file,
    while the file that root [A] holds under that name is stat'ed and
    opened.  And [A], where the name cannot be enumerated, does not keep the
    listing pass from finding the directory of the same name in [B]: over
    the roots [A] and [B] the pass enumerates [B]'s directory and yields its
    listing alone. *)
Theorem file_pass_skips_directories (sys : Host) (flags : Flags) (r : Request)
    (A B : string) (statA statB : os.FileInfo) (e : error)
    (raw : list os.FileInfo) (s : World) :
  Stat sys (filepath.Join [A; URL_Path r]) = Ok statA ->
  os.IsDir statA = false ->
  Readdir sys (filepath.Join [A; URL_Path r]) = Err e ->
  Stat sys (filepath.Join [B; URL_Path r]) = Ok statB ->
  os.IsDir statB = true ->
  Readdir sys (filepath.Join [B; URL_Path r]) = Ok raw ->
  (forall p s', fst (tryFile sys flags r p s') = true ->
     exists stat, Stat sys p = Ok stat /\ os.IsDir stat = false)
  /\ fst (tryFile sys flags r (filepath.Join [B; URL_Path r]) s) = false
  /\ probe sys (filepath.Join [A; URL_Path r])
     = [AccStat (filepath.Join [A; URL_Path r]);
        AccOpen (filepath.Join [A; URL_Path r])]
  /\ fst (collectDirs sys r [A; B] [] false s)
     = ([mkDirList B (URL_Path r)
           (mkEntry ".." true :: map entryOf (ioutil.sortByName raw))],
        true)
  /\ In (AccReadDir (filepath.Join [B; URL_Path r]))
        (accesses (snd (tryDirs sys r [A; B] s))).
Proof.
  intros HstatA HfileA HreadA HstatB HdirB HreadB. repeat split.
  - intros p s'. rewrite tryFile_spec. unfold servable.
    destruct (Stat sys p) as [stat|]; [|discriminate].
    destruct (os.IsDir stat) eqn:E; [discriminate|]. intros _. now exists stat.
  - rewrite tryFile_spec. unfold servable. now rewrite HstatB, HdirB.
  - unfold probe. now rewrite HstatA, HfileA.
  - rewrite collectDirs_spec. unfold listingsOf. cbn [flat_map].
    now rewrite HreadA, HreadB.
  - rewrite tryDirs_spec. unfold listingsOf, readDirs. cbn [flat_map].
    rewrite HreadA, HreadB. simpl. apply in_or_app. right. simpl. tauto.
Qed.

Lemma file_pass_skips_directories_witness :
  fst (tryFile twoRoots defaultFlags (get "/sub" "text/html") "B/sub" fresh) = false
  /\ fst (collectDirs twoRoots (get "/sub" "text/html") ["A"; "B"] [] false fresh)
     = ([mkDirList "B" "/sub"
           [mkEntry ".." true; mkEntry "a.txt" false; mkEntry "b.txt" false]],
        true).
Proof.
  pose proof (file_pass_skips_directories twoRoots defaultFlags
                (get "/sub" "text/html") "A" "B"
                (os.mkFileInfo "sub" 3 false) (os.mkFileInfo "sub" 5 true)
                "not a directory"
                [os.mkFileInfo "b.txt" 6 false; os.mkFileInfo "a.txt" 7 false]
                fresh eq_refl eq_refl eq_refl eq_refl eq_refl eq_refl)
    as (_ & Hfile & _ & Hlist & _).
  split; [exact Hfile | exact Hlist].
Defined.

(** In that scenario the handler itself answers a request for [/sub] from
    [A]'s file, in the file pass; the listing pass is reached for a path
    that no root holds as a file, such as [/sub] over the root [B] alone. *)
Example sub_served_from_file :
  body (resp (respond twoRoots defaultFlags ["A"; "B"] (get "/sub" "text/html")))
  = "a file"
  /\ accesses (respond twoRoots defaultFlags ["B"] (get "/sub" "text/html"))
     = [AccStat "B/sub"; AccStat "B/sub/index.html"; AccReadDir "B/sub"].
Proof. vm_compute. split; reflexivity. Qed.

(** C6.  The listing pass yields one listing per root whose directory can
    be enumerated, in the order of the roots, each next to the others; a
    root whose directory cannot be enumerated adds nothing.  No failure
    reaches the client: when no root enumerates the pass reports no match
    and leaves the response as it was, and otherwise it writes the page of
    all listings. *)
Theorem listing_pass_overlay (sys : Host) (r : Request) (dirs : list string)
    (s : World) :
  let listings := listingsOf sys (URL_Path r) dirs in
  let out := tryDirs sys r dirs s in
  fst (collectDirs sys r dirs [] false s) = (listings, negb (isEmpty listings))
  /\ map LocalPath listings = filter (enumerates sys (URL_Path r)) dirs
  /\ (forall d, In d listings ->
        RequestPath d = URL_Path r
        /\ exists raw,
             Readdir sys (filepath.Join [LocalPath d; URL_Path r]) = Ok raw
             /\ Entries d = parentEntry :: map entryOf (ioutil.sortByName raw))
  /\ (listings = [] -> fst out = false /\ resp (snd out) = resp s)
  /\ (listings <> [] ->
        fst out = true
        /\ resp (snd out)
           = http.write (htmlTmpl_Execute listings)
               (http.setHeader "Content-Type" "text/html; charset=utf-8" (resp s))
        /\ (status (resp s) = None -> http.statusSent (resp (snd out)) = 200)).
Proof.
  intros listings out. subst out. rewrite collectDirs_spec, tryDirs_spec.
  cbv zeta. fold listings. repeat split.
  - apply listingsOf_roots.
  - now apply listingsOf_In in H.
  - apply listingsOf_In in H as (_ & _ & H). exact H.
  - now rewrite H.
  - now rewrite H.
  - destruct listings; [now elim H | reflexivity].
  - destruct listings; [now elim H | reflexivity].
  - intros Hs. destruct listings; [now elim H|].
    unfold http.statusSent, http.write, http.writeHeader, http.setHeader.
    simpl. now rewrite Hs.
Qed.

Lemma listing_pass_overlay_witness :
  map LocalPath (listingsOf twoRoots "/" ["A"; "missing"; "B"]) = ["A"; "B"]
  /\ fst (tryDirs twoRoots (get "/" "text/html") ["A"; "missing"; "B"] fresh) = true
  /\ fst (tryDirs twoRoots (get "/nowhere" "text/html") ["A"; "B"] fresh) = false.
Proof.
  pose proof (listing_pass_overlay twoRoots (get "/" "text/html")
                ["A"; "missing"; "B"] fresh) as (_ & Hroots & _ & _ & Hsome).
  pose proof (listing_pass_overlay twoRoots (get "/nowhere" "text/html")
                ["A"; "B"] fresh) as (_ & _ & _ & Hnone & _).
  split; [exact Hroots | split].
  - apply Hsome. vm_compute. discriminate.
  - apply Hnone. vm_compute. reflexivity.
Defined.

(** ** The handler *)

Lemma respond_resolve (sys : Host) (flags : Flags) (dirs : list string)
    (r : Request) :
  respond sys flags dirs r = snd (resolve sys flags dirs r (entered flags r)).
Proof.
  unfold respond, handler, resolve, entered, bind, when, log, http.Header_Set,
    onResponse, ret.
  simpl. now destruct (verbose flags).
Qed.

Lemma resolve_invalid (sys : Host) (flags : Flags) (dirs : list string)
    (r : Request) (s : World) :
  validRequest r = false ->
  snd (resolve sys flags dirs r s)
  = mkWorld
      (http.write ("invalid path" ++ template.nl)
         (http.writeHeader http.StatusBadRequest
            (http.setHeader "X-Content-Type-Options" "nosniff"
               (http.setHeader "Content-Type" "text/plain; charset=utf-8"
                  (resp s)))))
      (accesses s)
      (logged s ++ [Printf "invalid path: %s" [URL_Path r]])%list.
Proof.
  intros H. unfold resolve. rewrite H. reflexivity.
Qed.

(** A valid request that matches no file leaves the file pass with the
    response untouched. *)
Lemma resolve_unmatched (sys : Host) (flags : Flags) (dirs : list string)
    (r : Request) (s : World) :
  validRequest r = true ->
  firstServable sys (candidates dirs (URL_Path r)) = None ->
  resolve sys flags dirs r s
  = (let s1 := missed (flat_map (probe sys) (candidates dirs (URL_Path r))) s in
     if negb (strings.Contains (Header_Get (Header r) "Accept") "text/html")
     then (tt, s1)
     else
       (fallback <- (if Nat.ltb 0 (String.length (index flags))
                     then staticIndex sys flags r else ret false) ;;
        if fallback then ret tt
        else
          listed <- (if negb (noList flags) then tryDirs sys r dirs else ret false) ;;
          if listed then ret tt
          else http.NotFound) s1).
Proof.
  intros Hvalid Hnone. unfold resolve. rewrite Hvalid. cbn [negb].
  unfold bind at 1. rewrite tryFiles_spec. cbv zeta. rewrite Hnone.
  now destruct (negb _).
Qed.

Lemma status_write_writeHeader (code : nat) (data : string) (w : ResponseWriter) :
  status w = None ->
  status (http.write data (http.writeHeader code w)) = Some code.
Proof.
  intros H. unfold http.write, http.writeHeader. rewrite H. reflexivity.
Qed.

(** C8.  A request whose path fails the traversal validation is answered
    with status 400 and makes no access to the file system (no stat, no
    open, no enumeration); hence a request that makes any access has passed
    the validation. *)
Theorem invalid_path_rejected_without_access (sys : Host) (flags : Flags)
    (dirs : list string) (r : Request) :
  (validRequest r = false ->
     let w := respond sys flags dirs r in
     status (resp w) = Some 400
     /\ http.statusSent (resp w) = 400
     /\ body (resp w) = "invalid path" ++ template.nl
     /\ accesses w = [])
  /\ (accesses (respond sys flags dirs r) <> [] -> validRequest r = true).
Proof.
  assert (Hinvalid : validRequest r = false ->
            let w := respond sys flags dirs r in
            status (resp w) = Some 400
            /\ http.statusSent (resp w) = 400
            /\ body (resp w) = "invalid path" ++ template.nl
            /\ accesses w = []).
  { intros H. cbv zeta. rewrite respond_resolve, (resolve_invalid _ _ _ _ _ H).
    unfold entered. repeat split. }
  split; [exact Hinvalid|].
  intros Hacc. apply not_false_is_true. intros H.
  apply Hacc. now apply Hinvalid.
Qed.

Lemma invalid_path_rejected_without_access_witness :
  http.statusSent (resp (respond twoRoots defaultFlags ["A"; "B"] (get "/sub/../../etc/passwd" "*/*"))) = 400
  /\ accesses (respond twoRoots defaultFlags ["A"; "B"] (get "/sub/../../etc/passwd" "*/*")) = []
  /\ validRequest (get "/foo.txt" "*/*") = true.
Proof.
  destruct (invalid_path_rejected_without_access twoRoots defaultFlags ["A"; "B"]
              (get "/sub/../../etc/passwd" "*/*")) as [Hinvalid _].
  destruct (Hinvalid eq_refl) as (_ & Hstatus & _ & Hacc).
  destruct (invalid_path_rejected_without_access twoRoots defaultFlags ["A"; "B"]
              (get "/foo.txt" "*/*")) as [_ Hvalid].
  split; [exact Hstatus | split; [exact Hacc|]].
  apply Hvalid. vm_compute. discriminate.
Defined.

(** C3.  What the handler does with a valid request that matches no file
    and whose Accept header lacks [text/html]: it returns having written
    neither a status nor a body, so the server sends status 200 with an
    empty body, where a not-found (404) reply is specified. *)
Theorem unmatched_without_markup_sends_200 (sys : Host) (flags : Flags)
    (dirs : list string) (r : Request) :
  validRequest r = true ->
  firstServable sys (candidates dirs (URL_Path r)) = None ->
  strings.Contains (Header_Get (Header r) "Accept") "text/html" = false ->
  let w := resp (respond sys flags dirs r) in
  status w = None
  /\ body w = ""
  /\ header w = [("Server", "serve/HEAD")]
  /\ http.statusSent w = 200
  /\ http.statusSent w <> http.StatusNotFound.
Proof.
  intros Hvalid Hnone Haccept. cbv zeta.
  rewrite respond_resolve, (resolve_unmatched _ _ _ _ _ Hvalid Hnone).
  cbv zeta. rewrite Haccept. simpl. repeat split. discriminate.
Qed.

Lemma unmatched_without_markup_sends_200_witness :
  http.statusSent (resp (respond twoRoots defaultFlags ["A"; "B"] (get "/missing" "*/*")))
  = 200
  /\ body (resp (respond twoRoots defaultFlags ["A"; "B"] (get "/missing" "*/*"))) = "".
Proof.
  destruct (unmatched_without_markup_sends_200 twoRoots defaultFlags ["A"; "B"]
              (get "/missing" "*/*") eq_refl eq_refl eq_refl)
    as (_ & Hbody & _ & Hsent & _).
  split; [exact Hsent | exact Hbody].
Defined.

(** The same request with [text/html] accepted reaches [http.NotFound]. *)
Example unmatched_with_markup_sends_404 :
  http.statusSent (resp (respond twoRoots defaultFlags ["A"; "B"] (get "/missing" "text/html")))
  = 404.
Proof. reflexivity. Qed.







(** ** Rendering *)

Lemma noneOf_app (bad : ascii -> bool) (a b : string) :
  noneOf bad (a ++ b) = noneOf bad a && noneOf bad b.
Proof.
  induction a as [|c a IH]; simpl; [reflexivity|].
  now rewrite IH, andb_assoc.
Qed.

(** A replacement table whose replacements are free of [bad] characters and
    which replaces every [bad] character yields output free of them. *)
Lemma replaceBytes_noneOf (bad : ascii -> bool) (table : ascii -> option string) :
  (forall c, match table c with
             | Some repl => noneOf bad repl = true
             | None => bad c = false
             end) ->
  forall s, noneOf bad (template.replaceBytes table s) = true.
Proof.
  intros Htable. induction s as [|c s IH]; simpl; [reflexivity|].
  specialize (Htable c). destruct (table c) as [repl|].
  - now rewrite noneOf_app, Htable, IH.
  - simpl. now rewrite Htable, IH.
Qed.

Ltac each_byte c :=
  destruct c as [[|] [|] [|] [|] [|] [|] [|] [|]]; vm_compute; reflexivity.

Lemma htmlReplacementTable_safe (c : ascii) :
  match template.htmlReplacementTable c with
  | Some repl => noneOf breaksText repl = true
  | None => breaksText c = false
  end.
Proof. each_byte c. Qed.

Lemma htmlNospaceReplacementTable_safe (c : ascii) :
  match template.htmlNospaceReplacementTable c with
  | Some repl => noneOf breaksUnquotedAttr repl = true
  | None => breaksUnquotedAttr c = false
  end.
Proof. each_byte c. Qed.

Lemma htmlEscaper_safe (s : string) :
  noneOf breaksText (template.htmlEscaper s) = true.
Proof. apply replaceBytes_noneOf, htmlReplacementTable_safe. Qed.

Lemma escapeHref_safe (s : string) :
  noneOf breaksUnquotedAttr (template.escapeHref s) = true.
Proof.
  unfold template.escapeHref, template.htmlNospaceEscaper.
  destruct (_ =? ""); [reflexivity|].
  apply replaceBytes_noneOf, htmlNospaceReplacementTable_safe.
Qed.

Lemma noneOf_angleBrackets (s : string) :
  noneOf isAngle s = true -> angleBrackets s = "".
Proof.
  induction s as [|c s IH]; simpl; [reflexivity|].
  destruct (isAngle c); simpl; [discriminate | exact IH].
Qed.

Lemma noneOf_weaken (bad bad' : ascii -> bool) (s : string) :
  (forall c, bad' c = true -> bad c = true) ->
  noneOf bad s = true -> noneOf bad' s = true.
Proof.
  intros Hsub. induction s as [|c s IH]; simpl; [reflexivity|].
  intros H. apply andb_true_iff in H as [Hc Hs].
  rewrite (IH Hs), andb_true_r.
  destruct (bad' c) eqn:E; [|reflexivity].
  now rewrite (Hsub c E) in Hc.
Qed.

Lemma isAngle_breaksText (c : ascii) : isAngle c = true -> breaksText c = true.
Proof. destruct c as [[|] [|] [|] [|] [|] [|] [|] [|]]; vm_compute; congruence. Qed.

Lemma isAngle_breaksUnquotedAttr (c : ascii) :
  isAngle c = true -> breaksUnquotedAttr c = true.
Proof. destruct c as [[|] [|] [|] [|] [|] [|] [|] [|]]; vm_compute; congruence. Qed.

Lemma angleBrackets_htmlEscaper (s : string) :
  angleBrackets (template.htmlEscaper s) = "".
Proof.
  apply noneOf_angleBrackets, (noneOf_weaken breaksText).
  - exact isAngle_breaksText.
  - apply htmlEscaper_safe.
Qed.

Lemma angleBrackets_escapeHref (s : string) :
  angleBrackets (template.escapeHref s) = "".
Proof.
  apply noneOf_angleBrackets, (noneOf_weaken breaksUnquotedAttr).
  - exact isAngle_breaksUnquotedAttr.
  - apply escapeHref_safe.
Qed.

Lemma angleBrackets_app (a b : string) :
  angleBrackets (a ++ b) = angleBrackets a ++ angleBrackets b.
Proof.
  induction a as [|c a IH]; simpl; [reflexivity|].
  destruct (isAngle c); simpl; now rewrite IH.
Qed.

Lemma angleBrackets_executeEntry (e : entry) :
  angleBrackets (executeEntry e) = "<><>".
Proof.
  unfold executeEntry.
  rewrite !angleBrackets_app, angleBrackets_htmlEscaper, angleBrackets_escapeHref.
  now destruct (IsDir e).
Qed.

Lemma angleBrackets_entries (entries : list entry) :
  angleBrackets (concatAll (map executeEntry entries))
  = concatAll (map (fun _ => "<><>") entries).
Proof.
  induction entries as [|e rest IH]; [reflexivity|]. cbn [map concatAll].
  now rewrite angleBrackets_app, angleBrackets_executeEntry, IH.
Qed.

Lemma angleBrackets_executeDirList (d : dirList) :
  angleBrackets (executeDirList d)
  = angleBrackets (executeDirList (blankDirList d)).
Proof.
  unfold executeDirList, blankDirList. cbn [LocalPath RequestPath Entries].
  rewrite !angleBrackets_app, !angleBrackets_htmlEscaper, !angleBrackets_entries.
  now rewrite map_map.
Qed.

Lemma concatAll_app (a b : list string) :
  concatAll (a ++ b) = concatAll a ++ concatAll b.
Proof.
  induction a as [|x a IH]; simpl; [reflexivity|].
  now rewrite IH, append_assoc.
Qed.

(** [occursIn] composes and is kept by text added on either side. *)
Lemma occursIn_refl (s : string) : occursIn s s.
Proof. exists "", "". simpl. now rewrite append_nil_r. Qed.

Lemma occursIn_left (pre piece s : string) :
  occursIn piece s -> occursIn piece (pre ++ s).
Proof.
  intros (b & a & ->). exists (pre ++ b), a. now rewrite append_assoc.
Qed.

Lemma occursIn_right (post piece s : string) :
  occursIn piece s -> occursIn piece (s ++ post).
Proof.
  intros (b & a & ->). exists b, (a ++ post). now rewrite !append_assoc.
Qed.

Lemma occursIn_trans (a b c : string) :
  occursIn a b -> occursIn b c -> occursIn a c.
Proof.
  intros Hab (b1 & b2 & ->). now apply occursIn_left, occursIn_right.
Qed.

Lemma occursIn_concatAll {A : Type} (f : A -> string) (l : list A) (x : A) :
  In x l -> occursIn (f x) (concatAll (map f l)).
Proof.
  intros H. apply in_split in H as (l1 & l2 & ->).
  rewrite map_app, concatAll_app. cbn [map concatAll].
  apply occursIn_left, occursIn_right, occursIn_refl.
Qed.

(** The anchor of every entry of every listing is part of the page. *)
Lemma executeEntry_in_page (dirLists : list dirList) (d : dirList) (e : entry) :
  In d dirLists -> In e (Entries d) ->
  occursIn (executeEntry e) (htmlTmpl_Execute dirLists).
Proof.
  intros Hd He.
  apply (occursIn_trans _ (executeDirList d)).
  - unfold executeDirList.
    do 15 apply occursIn_left. apply occursIn_right.
    now apply occursIn_concatAll.
  - unfold htmlTmpl_Execute. apply occursIn_left, occursIn_right.
    now apply occursIn_concatAll.
Qed.

Lemma angleBrackets_dirLists (dirLists : list dirList) :
  angleBrackets (concatAll (map executeDirList dirLists))
  = angleBrackets (concatAll (map executeDirList (map blankDirList dirLists))).
Proof.
  induction dirLists as [|d rest IH]; [reflexivity|]. cbn [map concatAll].
  now rewrite !angleBrackets_app, IH, angleBrackets_executeDirList.
Qed.

(** What is written for a character of element content reads back as that
    character. *)
Lemma decode_replacement (c : ascii) (rest : string) :
  (c =? ascii_of_nat 0)%char = false ->
  decodeFrom 0
    (match template.htmlReplacementTable c with
     | Some repl => repl ++ rest
     | None => String c rest
     end)
  = String c (decodeFrom 0 rest).
Proof.
  destruct c as [[|] [|] [|] [|] [|] [|] [|] [|]]; intros H;
    first [discriminate H | reflexivity].
Qed.

Lemma htmlEscaper_read_back (s : string) :
  mentions (ascii_of_nat 0) s = false ->
  unescapeText (template.htmlEscaper s) = s.
Proof.
  unfold unescapeText, template.htmlEscaper.
  induction s as [|c s IH]; [reflexivity|].
  cbn [mentions template.replaceBytes]. intros H.
  apply orb_false_iff in H as [Hc Hs].
  rewrite decode_replacement by exact Hc. now rewrite (IH Hs).
Qed.

Lemma unreserved_kept (c : ascii) :
  unreserved c = true ->
  (c =? ":")%char = false
  /\ (forall rest, template.urlKeeps c rest = true)
  /\ template.htmlNospaceReplacementTable c = None.
Proof.
  destruct c as [[|] [|] [|] [|] [|] [|] [|] [|]]; intros H;
    first [discriminate H | repeat split].
Qed.

Lemma plainName_cons (c : ascii) (s : string) :
  plainName (String c s) = true -> unreserved c = true /\ plainName s = true.
Proof.
  unfold plainName. cbn [noneOf]. rewrite negb_involutive.
  intros H. now apply andb_true_iff in H.
Qed.

Lemma plain_no_protocol (s : string) :
  plainName s = true -> template.beforeColon s = None.
Proof.
  induction s as [|c s IH]; [reflexivity|]. intros H.
  apply plainName_cons in H as [Hc Hs].
  destruct (unreserved_kept c Hc) as (Hcolon & _ & _).
  cbn [template.beforeColon]. now rewrite Hcolon, (IH Hs).
Qed.

Lemma plain_urlNormalizer (s : string) :
  plainName s = true -> template.urlNormalizer s = s.
Proof.
  induction s as [|c s IH]; [reflexivity|]. intros H.
  apply plainName_cons in H as [Hc Hs].
  destruct (unreserved_kept c Hc) as (_ & Hkeeps & _).
  cbn [template.urlNormalizer]. now rewrite Hkeeps, (IH Hs).
Qed.

Lemma plain_replaceBytes (s : string) :
  plainName s = true ->
  template.replaceBytes template.htmlNospaceReplacementTable s = s.
Proof.
  induction s as [|c s IH]; [reflexivity|]. intros H.
  apply plainName_cons in H as [Hc Hs].
  destruct (unreserved_kept c Hc) as (_ & _ & Htable).
  cbn [template.replaceBytes]. now rewrite Htable, (IH Hs).
Qed.

(** A name of unreserved characters is its own link. *)
Lemma escapeHref_plain (s : string) :
  plainName s = true -> s <> "" -> template.escapeHref s = s.
Proof.
  intros Hplain Hne.
  unfold template.escapeHref, template.urlFilter, template.isSafeURL.
  rewrite (plain_no_protocol _ Hplain), (plain_urlNormalizer _ Hplain).
  unfold template.htmlNospaceEscaper.
  destruct (String.eqb_spec s "") as [E|_]; [congruence|].
  now apply plain_replaceBytes.
Qed.

Lemma nospace_replacement_nonempty (c : ascii) :
  template.htmlNospaceReplacementTable c <> Some "".
Proof. destruct c as [[|] [|] [|] [|] [|] [|] [|] [|]]; discriminate. Qed.

(** The value written after [href=] is never empty. *)
Lemma escapeHref_nonempty (s : string) : template.escapeHref s <> "".
Proof.
  unfold template.escapeHref, template.htmlNospaceEscaper.
  destruct (String.eqb_spec (template.urlNormalizer (template.urlFilter s)) "")
    as [_|Hne]; [discriminate|].
  destruct (template.urlNormalizer (template.urlFilter s)) as [|c rest];
    [congruence|].
  cbn [template.replaceBytes].
  pose proof (nospace_replacement_nonempty c) as Hc.
  destruct (template.htmlNospaceReplacementTable c) as [[|x repl]|];
    [congruence | discriminate | discriminate].
Qed.

(** C9.  Every entry name of a rendered listing reaches the page in escaped
    form only.  The anchor of the entry is part of the page and is the text
    of the template with, after [href=], the name as escaped for a URL in an
    unquoted attribute value and, as the content of the anchor, the name as
    escaped for element content.  What is written after [href=] is not
    empty and holds no character that ends or breaks an unquoted attribute
    value, so the name adds no attribute and does not close the tag; a name
    of unreserved characters is written as it is.  What is written as
    content holds no angle bracket and no quote and reads back, character
    reference by character reference, as the name.  And the angle brackets
    of the whole page, which delimit its tags, are those of the page
    rendered with every name and path blanked: no name adds or removes
    markup. *)
Theorem entry_names_escaped (dirLists : list dirList) :
  (forall d e, In d dirLists -> In e (Entries d) ->
     occursIn (executeEntry e) (htmlTmpl_Execute dirLists)
     /\ executeEntry e
        = template.nl ++ template.tab ++ template.tab ++ template.tab
          ++ "<a class=" ++ template.dq ++ "entry"
          ++ (if IsDir e then " dir" else "") ++ template.dq
          ++ " href=" ++ template.escapeHref (Name e) ++ ">"
          ++ template.htmlEscaper (Name e)
          ++ (if IsDir e then "/" else "") ++ "</a>"
          ++ template.nl ++ template.tab ++ template.tab
     /\ noneOf breaksUnquotedAttr (template.escapeHref (Name e)) = true
     /\ template.escapeHref (Name e) <> ""
     /\ (plainName (Name e) = true -> Name e <> "" ->
         template.escapeHref (Name e) = Name e)
     /\ noneOf breaksText (template.htmlEscaper (Name e)) = true
     /\ (mentions (ascii_of_nat 0) (Name e) = false ->
         unescapeText (template.htmlEscaper (Name e)) = Name e)
     /\ angleBrackets (executeEntry e) = "<><>")
  /\ angleBrackets (htmlTmpl_Execute dirLists)
     = angleBrackets (htmlTmpl_Execute (map blankDirList dirLists)).
Proof.
  split.
  - intros d e Hd He. split; [now apply (executeEntry_in_page dirLists d)|].
    split; [reflexivity|].
    split; [apply escapeHref_safe|].
    split; [apply escapeHref_nonempty|].
    split; [apply escapeHref_plain|].
    split; [apply htmlEscaper_safe|].
    split; [apply htmlEscaper_read_back | apply angleBrackets_executeEntry].
  - unfold htmlTmpl_Execute.
    now rewrite !angleBrackets_app, angleBrackets_dirLists.
Qed.

Lemma entry_names_escaped_witness :
  noneOf breaksUnquotedAttr (template.escapeHref "x onmouseover=alert(1)") = true
  /\ unescapeText (template.htmlEscaper "<script>.txt") = "<script>.txt"
  /\ template.escapeHref "b.txt" = "b.txt".
Proof.
  pose (d := mkDirList "A" "/"
               [parentEntry; mkEntry "<script>.txt" false;
                mkEntry "x onmouseover=alert(1)" false; mkEntry "b.txt" false]).
  destruct (entry_names_escaped [d]) as [Hentries _].
  destruct (Hentries d (mkEntry "x onmouseover=alert(1)" false))
    as (_ & _ & Hattr & _).
  { simpl. left. reflexivity. }
  { simpl. right. right. left. reflexivity. }
  destruct (Hentries d (mkEntry "<script>.txt" false))
    as (_ & _ & _ & _ & _ & _ & Hback & _).
  { simpl. left. reflexivity. }
  { simpl. right. left. reflexivity. }
  destruct (Hentries d (mkEntry "b.txt" false))
    as (_ & _ & _ & _ & Hplain & _).
  { simpl. left. reflexivity. }
  { simpl. right. right. right. left. reflexivity. }
  split; [exact Hattr | split].
  - apply Hback. reflexivity.
  - apply Hplain; [reflexivity | discriminate].
Defined.

(** An entry named [<script>.txt] is written as [&lt;script&gt;.txt] in the
    text of its anchor and as [%3cscript%3e.txt] in its [href]; the page
    does not contain the raw name.  A name with a space and an equals sign
    stays one attribute value. *)
Example script_name_rendered_escaped :
  let page :=
    htmlTmpl_Execute
      [mkDirList "A" "/"
         [parentEntry; mkEntry "<script>.txt" false;
          mkEntry "x onmouseover=alert(1)" false]] in
  strings.Contains page "<script>" = false
  /\ strings.Contains page "href=%3cscript%3e.txt>&lt;script&gt;.txt</a>" = true
  /\ strings.Contains page "href=x%20onmouseover&#61;alert%281%29>" = true
  /\ strings.Contains page "href=x onmouseover" = false.
Proof. vm_compute. repeat split. Qed.

(** * Further properties of the handler *)

Lemma bind_eq {A B : Type} (m : M A) (k : A -> M B) (s : World) :
  bind m k s = k (fst (m s)) (snd (m s)).
Proof. unfold bind. now destruct (m s). Qed.

(** [staticIndex] opens, then stats, the fallback; it serves it when both
    succeed and otherwise prints the error of the open. *)
Lemma staticIndex_spec (sys : Host) (flags : Flags) (r : Request) (s : World) :
  staticIndex sys flags r s =
  match Open sys (index flags), Stat sys (index flags) with
  | Ok file, Ok stat =>
      (true,
       mkWorld
         (ServeContent sys r (os.Name stat) (os.ModTime stat) file (resp s))
         (accesses s ++ indexAccesses flags)%list
         (logged s))
  | fl, _ => (false, indexFailed flags fl s)
  end.
Proof.
  unfold staticIndex, os_Open, os_Stat, http_ServeContent, access, onResponse,
    log, indexFailed, indexAccesses, bind, ret.
  simpl.
  destruct (Open sys (index flags)), (Stat sys (index flags));
    simpl; now rewrite <- app_assoc.
Qed.

Lemma NotFound_run (s : World) : http.NotFound s = (tt, notFound s).
Proof. reflexivity. Qed.

Lemma length_empty (s : string) :
  Nat.ltb 0 (String.length s) = false -> s = "".
Proof. destruct s; [reflexivity | discriminate]. Qed.

(** The ways a request can go, one premise per way: a property that holds of
    the world each way ends in holds of the outcome of every request. *)
Lemma respond_cases (sys : Host) (flags : Flags) (dirs : list string)
    (r : Request) (P : World -> Prop) :
  let s0 := entered flags r in
  let paths := candidates dirs (URL_Path r) in
  let s1 := missed (flat_map (probe sys) paths) s0 in
  let listings := listingsOf sys (URL_Path r) dirs in
  (validRequest r = false -> P (rejected r s0)) ->
  (forall n stat file,
     validRequest r = true ->
     firstServable sys paths = Some (n, stat, file) ->
     P (served sys flags r (nth n paths "") stat file
          (flat_map (probe sys) (firstn (S n) paths)) s0)) ->
  (validRequest r = true -> firstServable sys paths = None ->
   strings.Contains (Header_Get (Header r) "Accept") "text/html" = false ->
   P s1) ->
  (forall file stat,
     validRequest r = true -> firstServable sys paths = None ->
     strings.Contains (Header_Get (Header r) "Accept") "text/html" = true ->
     index flags <> "" ->
     Open sys (index flags) = Ok file -> Stat sys (index flags) = Ok stat ->
     P (mkWorld
          (ServeContent sys r (os.Name stat) (os.ModTime stat) file (resp s1))
          (accesses s1 ++ indexAccesses flags)%list (logged s1))) ->
  (forall s2,
     validRequest r = true -> firstServable sys paths = None ->
     strings.Contains (Header_Get (Header r) "Accept") "text/html" = true ->
     fallbackSkipped sys flags s1 s2 ->
     noList flags = true ->
     P (notFound s2)) ->
  (forall s2,
     validRequest r = true -> firstServable sys paths = None ->
     strings.Contains (Header_Get (Header r) "Accept") "text/html" = true ->
     fallbackSkipped sys flags s1 s2 ->
     noList flags = false -> listings = [] ->
     P (notFound (missed (readDirs (URL_Path r) dirs) s2))) ->
  (forall s2,
     validRequest r = true -> firstServable sys paths = None ->
     strings.Contains (Header_Get (Header r) "Accept") "text/html" = true ->
     fallbackSkipped sys flags s1 s2 ->
     noList flags = false -> listings <> [] ->
     P (listed listings (readDirs (URL_Path r) dirs) s2)) ->
  P (respond sys flags dirs r).
Proof.
  intros s0 paths s1 listings Hrejected Hserved Hsilent Hfallback
    HnoList Hnothing Hlisted.
  rewrite respond_resolve. fold s0.
  destruct (validRequest r) eqn:Hvalid.
  2:{ rewrite (resolve_invalid _ _ _ _ _ Hvalid). now apply Hrejected. }
  unfold resolve. rewrite Hvalid. cbn [negb].
  rewrite bind_eq, tryFiles_spec. cbv zeta. fold paths.
  destruct (firstServable sys paths) as [[[n stat] file]|] eqn:Hfirst;
    cbn [fst snd].
  { now apply Hserved. }
  fold s1.
  destruct (strings.Contains (Header_Get (Header r) "Accept") "text/html")
    eqn:Haccept; cbn [negb].
  2:{ now apply Hsilent. }
  rewrite bind_eq.
  assert (Hrest : forall s2, fallbackSkipped sys flags s1 s2 ->
            P (snd ((listed' <- (if negb (noList flags)
                                 then tryDirs sys r dirs else ret false) ;;
                     if listed' then ret tt else http.NotFound) s2))).
  { intros s2 Hskip. rewrite bind_eq.
    destruct (noList flags) eqn:Hno; cbn [negb].
    - change (ret false s2) with (false, s2). cbn [fst snd].
      rewrite NotFound_run. now apply HnoList.
    - rewrite tryDirs_spec. cbv zeta. subst listings.
      destruct (listingsOf sys (URL_Path r) dirs) as [|d rest] eqn:Hl;
        cbn [isEmpty fst snd].
      + rewrite NotFound_run. now apply Hnothing.
      + apply (Hlisted s2); try reflexivity; try assumption. discriminate. }
  destruct (Nat.ltb 0 (String.length (index flags))) eqn:Hindex.
  2:{ apply length_empty in Hindex.
      change (ret false s1) with (false, s1). cbn [fst snd].
      apply Hrest. left. now split. }
  assert (Hne : index flags <> "").
  { intros E. rewrite E in Hindex. discriminate. }
  rewrite staticIndex_spec.
  destruct (Open sys (index flags)) as [file|e] eqn:Hopen.
  - destruct (Stat sys (index flags)) as [stat|e] eqn:Hstat; cbn [fst snd].
    + now apply Hfallback.
    + apply Hrest. right. split; [exact Hne|]. split; [|now rewrite Hopen].
      right. now exists e.
  - cbn [fst snd]. apply Hrest. right. split; [exact Hne|].
    split; [|now rewrite Hopen]. left. now exists e.
Qed.

(** ** The accesses of a request *)

Lemma fallbackSkipped_accesses (sys : Host) (flags : Flags) (s1 s2 : World) :
  fallbackSkipped sys flags s1 s2 ->
  exists idx,
    accesses s2 = (accesses s1 ++ idx)%list
    /\ (idx = [] \/ (idx = indexAccesses flags /\ index flags <> "")).
Proof.
  intros [[_ ->]|(Hne & _ & ->)].
  - exists []. rewrite app_nil_r. auto.
  - exists (indexAccesses flags). auto.
Qed.

Lemma fallbackSkipped_resp (sys : Host) (flags : Flags) (s1 s2 : World) :
  fallbackSkipped sys flags s1 s2 -> resp s2 = resp s1.
Proof. now intros [[_ ->]|(_ & _ & ->)]. Qed.

(** Every request makes its accesses in the order of the passes. *)
Lemma accesses_shape (sys : Host) (flags : Flags) (dirs : list string)
    (r : Request) :
  exists k idx reads,
    accesses (respond sys flags dirs r)
    = passAccesses sys (candidates dirs (URL_Path r)) k idx reads
    /\ (idx = [] \/ (idx = indexAccesses flags /\ index flags <> ""))
    /\ (reads = []
        \/ (reads = readDirs (URL_Path r) dirs /\ noList flags = false)).
Proof.
  apply respond_cases; unfold passAccesses; cbn [accesses entered rejected served
    missed notFound listed app].
  - intros _. exists 0, [], []. auto.
  - intros n stat file _ _. eexists (S n), [], []. rewrite app_nil_r. auto.
  - intros _ _ _. eexists (length (candidates dirs (URL_Path r))), [], [].
    rewrite firstn_all, app_nil_r. auto.
  - intros file stat _ _ _ Hne _ _.
    eexists (length (candidates dirs (URL_Path r))), (indexAccesses flags), [].
    rewrite firstn_all, app_nil_r. auto.
  - intros s2 _ _ _ Hskip _.
    destruct (fallbackSkipped_accesses _ _ _ _ Hskip) as (idx & -> & Hidx).
    eexists (length (candidates dirs (URL_Path r))), idx, [].
    cbn [accesses missed entered app].
    rewrite firstn_all, app_nil_r. auto.
  - intros s2 _ _ _ Hskip Hno _.
    destruct (fallbackSkipped_accesses _ _ _ _ Hskip) as (idx & -> & Hidx).
    eexists (length (candidates dirs (URL_Path r))), idx, (readDirs (URL_Path r) dirs).
    cbn [accesses missed entered app].
    rewrite firstn_all, <- app_assoc. auto.
  - intros s2 _ _ _ Hskip Hno _.
    destruct (fallbackSkipped_accesses _ _ _ _ Hskip) as (idx & -> & Hidx).
    eexists (length (candidates dirs (URL_Path r))), idx, (readDirs (URL_Path r) dirs).
    cbn [accesses missed entered app].
    rewrite firstn_all, <- app_assoc. auto.
Qed.

Lemma probe_allowed (sys : Host) (flags : Flags) (dirs : list string)
    (r : Request) (p : string) :
  In p (candidates dirs (URL_Path r)) ->
  Forall (allowedAccess sys flags dirs r) (probe sys p).
Proof.
  intros Hp. unfold probe.
  destruct (Stat sys p) as [stat|e] eqn:Hstat.
  - destruct (os.IsDir stat) eqn:Hdir.
    + apply Forall_cons; [simpl; auto | apply Forall_nil].
    + apply Forall_cons; [simpl; auto|].
      apply Forall_cons; [|apply Forall_nil].
      simpl. left. split; [exact Hp|]. now exists stat.
  - apply Forall_cons; [simpl; auto | apply Forall_nil].
Qed.

Lemma probes_allowed (sys : Host) (flags : Flags) (dirs : list string)
    (r : Request) (paths : list string) :
  incl paths (candidates dirs (URL_Path r)) ->
  Forall (allowedAccess sys flags dirs r) (flat_map (probe sys) paths).
Proof.
  induction paths as [|p rest IH]; intros Hincl; simpl; [constructor|].
  apply Forall_app. split.
  - apply probe_allowed, Hincl. now left.
  - apply IH. intros q Hq. apply Hincl. now right.
Qed.

Lemma firstn_incl {A : Type} (k : nat) (l : list A) : incl (firstn k l) l.
Proof.
  revert k. induction l as [|x l IH]; intros [|k]; simpl; intros y Hy;
    try contradiction.
  destruct Hy as [<-|Hy]; [now left | right; now apply (IH k)].
Qed.

Lemma length_probes (sys : Host) (paths : list string) :
  length (flat_map (probe sys) paths) <= 2 * length paths.
Proof.
  induction paths as [|p rest IH]; simpl; [lia|].
  rewrite length_app.
  assert (length (probe sys p) <= 2).
  { unfold probe. destruct (Stat sys p) as [st|]; [destruct (os.IsDir st)|];
      simpl; lia. }
  lia.
Qed.

Lemma length_candidates (dirs : list string) (path : string) :
  length (candidates dirs path) = 2 * length dirs.
Proof.
  unfold candidates. induction dirs as [|d rest IH]; [reflexivity|].
  cbn [flat_map app length]. rewrite IH. lia.
Qed.

(** X1.  The accesses of every request come in the order of the passes:
    first the probes of the file pass over an initial stretch of the
    candidates, then, at most once and only when a fallback is configured,
    the open and the stat of the fallback, then, only when listings are
    enabled, one enumeration per root. *)
Theorem accesses_in_pass_order (sys : Host) (flags : Flags)
    (dirs : list string) (r : Request) :
  exists k idx reads,
    accesses (respond sys flags dirs r)
    = (flat_map (probe sys) (firstn k (candidates dirs (URL_Path r)))
       ++ idx ++ reads)%list
    /\ (idx = []
        \/ (idx = [AccOpen (index flags); AccStat (index flags)]
            /\ index flags <> ""))
    /\ (reads = []
        \/ (reads = map (fun dir => AccReadDir (filepath.Join [dir; URL_Path r])) dirs
            /\ noList flags = false)).
Proof. apply accesses_shape. Qed.

Lemma shaped_allowed (sys : Host) (flags : Flags) (dirs : list string)
    (r : Request) (k : nat) (idx reads : list FsAccess) :
  (idx = [] \/ (idx = indexAccesses flags /\ index flags <> "")) ->
  (reads = [] \/ (reads = readDirs (URL_Path r) dirs /\ noList flags = false)) ->
  Forall (allowedAccess sys flags dirs r)
    (passAccesses sys (candidates dirs (URL_Path r)) k idx reads).
Proof.
  intros Hidx Hreads. unfold passAccesses.
  apply Forall_app. split; [apply probes_allowed, firstn_incl|].
  apply Forall_app. split.
  - destruct Hidx as [->|[-> Hne]]; [constructor|].
    unfold indexAccesses. repeat apply Forall_cons; try apply Forall_nil;
      simpl; auto.
  - destruct Hreads as [->|[-> Hno]]; [constructor|].
    unfold readDirs. apply Forall_forall. intros a Ha.
    apply in_map_iff in Ha as (dir & <- & Hdir). simpl.
    split; [exact Hno|]. now exists dir.
Qed.

(** X2.  A request touches nothing but what it is entitled to: it stats
    only candidates of the file pass and the configured fallback, opens a
    candidate only after a stat that reported a file (never a directory,
    never a path whose stat failed), opens the fallback only when one is
    configured, and enumerates only the directories of the roots under the
    request path, and only when listings are enabled. *)
Theorem accesses_confined (sys : Host) (flags : Flags) (dirs : list string)
    (r : Request) :
  Forall (allowedAccess sys flags dirs r) (accesses (respond sys flags dirs r)).
Proof.
  destruct (accesses_shape sys flags dirs r) as (k & idx & reads & -> & Hi & Hr).
  now apply shaped_allowed.
Qed.

(** X3.  A request makes at most five accesses per root and two more: two
    stats and two opens in the file pass and one enumeration per root, and
    the open and the stat of the fallback. *)
Theorem accesses_bounded (sys : Host) (flags : Flags) (dirs : list string)
    (r : Request) :
  length (accesses (respond sys flags dirs r)) <= 5 * length dirs + 2.
Proof.
  destruct (accesses_shape sys flags dirs r) as (k & idx & reads & -> & Hi & Hr).
  unfold passAccesses. rewrite !length_app.
  pose proof (length_probes sys (firstn k (candidates dirs (URL_Path r)))) as Hp.
  rewrite length_firstn, length_candidates in Hp.
  assert (length idx <= 2).
  { destruct Hi as [->|[-> _]]; simpl; lia. }
  assert (length reads <= length dirs).
  { destruct Hr as [->|[-> _]]; [simpl; lia|].
    unfold readDirs. now rewrite length_map. }
  lia.
Qed.

(** X4.  With listings disabled no request enumerates a directory. *)
Theorem no_listing_no_enumeration (sys : Host) (flags : Flags)
    (dirs : list string) (r : Request) :
  noList flags = true ->
  forall a, In a (accesses (respond sys flags dirs r)) -> isReadDir a = false.
Proof.
  intros Hno a Ha.
  destruct (accesses_shape sys flags dirs r) as (k & idx & reads & E & Hi & Hr).
  rewrite E in Ha.
  pose proof (shaped_allowed sys flags dirs r k idx reads Hi Hr) as Hall.
  rewrite Forall_forall in Hall. specialize (Hall a Ha).
  destruct a as [p|p|p]; try reflexivity.
  simpl in Hall. destruct Hall as [Hfalse _]. congruence.
Qed.

Lemma no_listing_no_enumeration_witness :
  isReadDir (AccStat "B/sub") = false.
Proof.
  apply (no_listing_no_enumeration twoRoots
           (mkFlags "localhost" "8080" "" true false) ["B"]
           (get "/sub" "text/html") eq_refl).
  vm_compute. left. reflexivity.
Defined.

(** ** The outcomes of a request *)

Lemma noFallback_not_served (sys : Host) (flags : Flags) (file : os.File)
    (stat : os.FileInfo) :
  noFallback sys flags -> index flags <> "" ->
  Open sys (index flags) = Ok file -> Stat sys (index flags) = Ok stat -> False.
Proof.
  intros [H|[[e H]|[e H]]] Hne Hopen Hstat; congruence.
Qed.

(** X5.  A valid request with a servable candidate is answered from the
    first one and the handler does nothing more: whatever the Accept
    header, the fallback and the listing flag are, the response is what
    [http.ServeContent] makes of the response carrying the [Server] header,
    and the only accesses are the probes of the candidates up to that one. *)
Theorem served_file_ends_request (sys : Host) (flags : Flags)
    (dirs : list string) (r : Request) (n : nat) (stat : os.FileInfo)
    (file : os.File) :
  validRequest r = true ->
  firstServable sys (candidates dirs (URL_Path r)) = Some (n, stat, file) ->
  let w := respond sys flags dirs r in
  resp w = ServeContent sys r (os.Name stat) (os.ModTime stat) file
             (http.setHeader "Server" "serve/HEAD" freshResponse)
  /\ accesses w
     = flat_map (probe sys) (firstn (S n) (candidates dirs (URL_Path r)))
  /\ (forall a, In a (accesses w) -> isReadDir a = false).
Proof.
  intros Hvalid Hfirst. cbv zeta.
  assert (E : respond sys flags dirs r
              = served sys flags r (nth n (candidates dirs (URL_Path r)) "")
                  stat file
                  (flat_map (probe sys) (firstn (S n) (candidates dirs (URL_Path r))))
                  (entered flags r)).
  { apply respond_cases; intros; congruence. }
  rewrite E. cbn [resp accesses served entered app].
  split; [reflexivity|]. split; [reflexivity|].
  intros a Ha. apply in_flat_map in Ha as (p & _ & Ha). unfold probe in Ha.
  destruct (Stat sys p) as [st|]; [destruct (os.IsDir st)|];
    simpl in Ha; intuition (subst; reflexivity).
Qed.

Lemma served_file_ends_request_witness :
  accesses (respond twoRoots (mkFlags "localhost" "8080" "spa.html" false false)
              ["A"; "B"] (get "/sub" "text/html"))
  = [AccStat "A/sub"; AccOpen "A/sub"].
Proof.
  destruct (served_file_ends_request twoRoots
              (mkFlags "localhost" "8080" "spa.html" false false)
              ["A"; "B"] (get "/sub" "text/html") 0
              (os.mkFileInfo "sub" 3 false) (os.mkFile "a file")
              eq_refl eq_refl) as (_ & Hacc & _).
  exact Hacc.
Defined.

(** X6.  A valid request that matches no file and accepts [text/html] is
    answered 404, in plain text, when no fallback is served and either
    listings are disabled or no root has a directory to enumerate under the
    request path; in particular a directory without [index.html] is not
    listed when listings are disabled. *)
Theorem unmatched_request_not_found (sys : Host) (flags : Flags)
    (dirs : list string) (r : Request) :
  validRequest r = true ->
  firstServable sys (candidates dirs (URL_Path r)) = None ->
  strings.Contains (Header_Get (Header r) "Accept") "text/html" = true ->
  noFallback sys flags ->
  noList flags = true \/ listingsOf sys (URL_Path r) dirs = [] ->
  let w := resp (respond sys flags dirs r) in
  http.statusSent w = 404
  /\ body w = "404 page not found" ++ template.nl
  /\ Header_Get (header w) "Content-Type" = "text/plain; charset=utf-8".
Proof.
  intros Hvalid Hfirst Haccept Hfallback Hlist. cbv zeta.
  assert (E : resp (respond sys flags dirs r)
              = notFoundReply (http.setHeader "Server" "serve/HEAD" freshResponse)).
  { apply respond_cases; intros; try congruence.
    - exfalso. eapply noFallback_not_served; eassumption.
    - cbn [resp notFound]. erewrite fallbackSkipped_resp by eassumption.
      reflexivity.
    - cbn [resp notFound missed]. erewrite fallbackSkipped_resp by eassumption.
      reflexivity.
    - destruct Hlist; congruence. }
  rewrite E. repeat split.
Qed.

Lemma unmatched_request_not_found_witness :
  http.statusSent
    (resp (respond twoRoots (mkFlags "localhost" "8080" "" true false)
             ["B"] (get "/sub" "text/html")))
  = 404.
Proof.
  destruct (unmatched_request_not_found twoRoots
              (mkFlags "localhost" "8080" "" true false)
              ["B"] (get "/sub" "text/html") eq_refl eq_refl eq_refl
              (or_introl eq_refl) (or_introl eq_refl)) as (Hstatus & _).
  exact Hstatus.
Defined.

(** X7.  A valid request that matches no file and accepts [text/html] is
    answered, when no fallback is served, listings are enabled and some root
    has a directory to enumerate under the request path, with status 200,
    content type [text/html; charset=utf-8] and the page of the listings of
    all those roots. *)
Theorem listing_served_as_page (sys : Host) (flags : Flags)
    (dirs : list string) (r : Request) :
  validRequest r = true ->
  firstServable sys (candidates dirs (URL_Path r)) = None ->
  strings.Contains (Header_Get (Header r) "Accept") "text/html" = true ->
  noFallback sys flags ->
  noList flags = false ->
  listingsOf sys (URL_Path r) dirs <> [] ->
  let w := resp (respond sys flags dirs r) in
  http.statusSent w = 200
  /\ body w = htmlTmpl_Execute (listingsOf sys (URL_Path r) dirs)
  /\ Header_Get (header w) "Content-Type" = "text/html; charset=utf-8".
Proof.
  intros Hvalid Hfirst Haccept Hfallback Hno Hlist. cbv zeta.
  assert (E : resp (respond sys flags dirs r)
              = http.write (htmlTmpl_Execute (listingsOf sys (URL_Path r) dirs))
                  (http.setHeader "Content-Type" "text/html; charset=utf-8"
                     (http.setHeader "Server" "serve/HEAD" freshResponse))).
  { apply respond_cases; intros; try congruence.
    - exfalso. eapply noFallback_not_served; eassumption.
    - cbn [resp listed]. erewrite fallbackSkipped_resp by eassumption.
      reflexivity. }
  rewrite E. repeat split.
Qed.

Lemma listing_served_as_page_witness :
  http.statusSent
    (resp (respond twoRoots defaultFlags ["A"; "B"] (get "/" "text/html")))
  = 200.
Proof.
  destruct (listing_served_as_page twoRoots defaultFlags ["A"; "B"]
              (get "/" "text/html") eq_refl eq_refl eq_refl
              (or_introl eq_refl) eq_refl) as (Hstatus & _).
  - vm_compute. discriminate.
  - exact Hstatus.
Defined.

(** X8.  [staticIndex] always opens and then stats the fallback, also when
    the open has failed.  It serves the fallback exactly when both succeed;
    otherwise it leaves the response untouched and prints one line, the
    error of the open, which reads [<nil>] when only the stat failed. *)
Theorem staticIndex_outcome (sys : Host) (flags : Flags) (r : Request)
    (s : World) :
  let out := staticIndex sys flags r s in
  (fst out = true <->
     exists file stat,
       Open sys (index flags) = Ok file /\ Stat sys (index flags) = Ok stat)
  /\ accesses (snd out)
     = (accesses s ++ [AccOpen (index flags); AccStat (index flags)])%list
  /\ (fst out = true -> logged (snd out) = logged s)
  /\ (fst out = false ->
        resp (snd out) = resp s
        /\ logged (snd out)
           = (logged s ++ [Println [errorText (Open sys (index flags))]])%list)
  /\ (forall file e,
        Open sys (index flags) = Ok file -> Stat sys (index flags) = Err e ->
        logged (snd out) = (logged s ++ [Println ["<nil>"]])%list).
Proof.
  cbv zeta. rewrite staticIndex_spec.
  destruct (Open sys (index flags)) as [file|e] eqn:Hopen;
    [destruct (Stat sys (index flags)) as [stat|e] eqn:Hstat|];
    cbn [fst snd accesses resp logged indexFailed indexAccesses errorText];
    repeat split; try discriminate; try reflexivity; try congruence.
  - intros _. now exists file, stat.
  - intros (f & st & _ & H). discriminate.
  - intros (f & st & H & _). discriminate.
Qed.

Lemma staticIndex_outcome_witness :
  fst (staticIndex twoRoots (mkFlags "localhost" "8080" "spa.html" false false)
         (get "/x" "text/html") fresh) = true
  /\ logged (snd (staticIndex twoRoots
                    (mkFlags "localhost" "8080" "missing.html" false false)
                    (get "/x" "text/html") fresh))
     = [Println ["no such file or directory"]].
Proof.
  destruct (staticIndex_outcome twoRoots
              (mkFlags "localhost" "8080" "spa.html" false false)
              (get "/x" "text/html") fresh) as (Hserved & _).
  destruct (staticIndex_outcome twoRoots
              (mkFlags "localhost" "8080" "missing.html" false false)
              (get "/x" "text/html") fresh) as (_ & _ & _ & Hfailed & _).
  split.
  - apply Hserved. exists (os.mkFile "<app>"), (os.mkFileInfo "spa.html" 8 false).
    split; reflexivity.
  - apply Hfailed. reflexivity.
Defined.

(** X9.  Every response carries the header [Server: serve/HEAD], whichever
    way the request goes, provided [http.ServeContent] leaves that header
    alone. *)
Theorem server_header_on_every_response (sys : Host) (flags : Flags)
    (dirs : list string) (r : Request) :
  keepsServer sys ->
  Header_Get (header (resp (respond sys flags dirs r))) "Server" = "serve/HEAD".
Proof.
  intros Hkeeps. apply respond_cases; intros;
    cbn [resp rejected served missed entered notFound listed];
    try (erewrite fallbackSkipped_resp by eassumption);
    try rewrite Hkeeps; reflexivity.
Qed.

Lemma server_header_on_every_response_witness :
  Header_Get
    (header (resp (respond twoRoots defaultFlags ["A"; "B"] (get "/../x" "*/*"))))
    "Server"
  = "serve/HEAD".
Proof.
  apply (server_header_on_every_response twoRoots defaultFlags ["A"; "B"]
           (get "/../x" "*/*")).
  intros r name modtime file w. destruct w as [h [code|] b]; reflexivity.
Defined.

(** X10.  Without the verbose flag a request logs nothing but the rejection
    of an invalid path and the error of a fallback that could not be
    served; a served file, a listing and a 404 leave no trace in the log. *)
Theorem quiet_log (sys : Host) (flags : Flags) (dirs : list string)
    (r : Request) :
  verbose flags = false ->
  Forall (alwaysLogged sys flags r) (logged (respond sys flags dirs r))
  /\ (validRequest r = true -> noList flags = true -> index flags = "" ->
      logged (respond sys flags dirs r) = []).
Proof.
  intros Hquiet.
  assert (Hskip : forall s1 s2, logged s1 = [] ->
            fallbackSkipped sys flags s1 s2 ->
            Forall (alwaysLogged sys flags r) (logged s2)
            /\ (index flags = "" -> logged s2 = [])).
  { intros s1 s2 Hs1 [[_ ->]|(Hne & _ & ->)].
    - rewrite Hs1. split; [constructor | reflexivity].
    - cbn [logged indexFailed]. rewrite Hs1. split; [|congruence].
      apply Forall_cons; [now right | constructor]. }
  assert (Hs1 : logged (missed (flat_map (probe sys) (candidates dirs (URL_Path r)))
                          (entered flags r)) = []).
  { cbn [logged missed entered]. now rewrite Hquiet. }
  apply respond_cases; intros;
    try match goal with
        | Hs : fallbackSkipped _ _ _ ?s2 |- _ =>
            destruct (Hskip _ s2 Hs1 Hs) as [Hall Hnone];
            cbn [logged notFound listed missed];
            split; [exact Hall | intros _ _; exact Hnone]
        end;
    cbn [logged rejected served missed entered]; rewrite ?Hquiet.
  - split; [|congruence]. apply Forall_cons; [now left | constructor].
  - split; [constructor | reflexivity].
  - split; [constructor | reflexivity].
  - split; [constructor | reflexivity].
Qed.

Lemma quiet_log_witness :
  logged (respond twoRoots (mkFlags "localhost" "8080" "" true false)
            ["A"; "B"] (get "/foo.txt" "*/*")) = [].
Proof.
  destruct (quiet_log twoRoots (mkFlags "localhost" "8080" "" true false)
              ["A"; "B"] (get "/foo.txt" "*/*") eq_refl) as [_ Hnone].
  apply Hnone; reflexivity.
Defined.

(** ** Validation and joined paths *)

Lemma splitFrom_append (cur a b : string) (c : ascii) :
  isSlashRune c = true ->
  splitFrom cur (a ++ String c b) = (splitFrom cur a ++ splitFrom "" b)%list.
Proof.
  intros Hc. revert cur. induction a as [|x a IH]; intros cur; simpl.
  - now rewrite Hc.
  - destruct (isSlashRune x); simpl; now rewrite IH.
Qed.

Lemma scanFields_app (l1 l2 : list string) :
  scanFields (l1 ++ l2) = scanFields l1 && scanFields l2.
Proof.
  induction l1 as [|f rest IH]; simpl; [reflexivity|].
  now destruct (f =? "..").
Qed.

(** X11.  Validation is decided token by token, so it distributes over the
    joining of two paths with a separator: the joined path is valid exactly
    when both parts are. *)
Theorem validRequest_joined (r r1 r2 : Request) (sep : ascii) :
  isSlashRune sep = true ->
  URL_Path r = URL_Path r1 ++ String sep (URL_Path r2) ->
  validRequest r = validRequest r1 && validRequest r2.
Proof.
  intros Hsep Hpath.
  rewrite !validRequest_scan, !FieldsFunc_tokens, Hpath. unfold tokens.
  now rewrite (splitFrom_append _ _ _ _ Hsep), filter_app, scanFields_app.
Qed.

Lemma validRequest_joined_witness :
  validRequest (get "/a/..\b/c" "*/*")
  = validRequest (get "/a/.." "*/*") && validRequest (get "b/c" "*/*").
Proof.
  apply (validRequest_joined (get "/a/..\b/c" "*/*") (get "/a/.." "*/*")
           (get "b/c" "*/*") "\"%char); reflexivity.
Defined.

Lemma elementsFrom_append (cur a b : string) :
  filepath.elementsFrom cur (a ++ String "/" b)
  = (filepath.elementsFrom cur a ++ filepath.elementsFrom "" b)%list.
Proof.
  revert cur. induction a as [|x a IH]; intros cur; simpl; [reflexivity|].
  destruct (x =? "/")%char; simpl; now rewrite IH.
Qed.

Lemma cleanElements_app (rooted : bool) (out l1 l2 : list string) :
  filepath.cleanElements rooted out (l1 ++ l2)
  = filepath.cleanElements rooted
      (rev (filepath.cleanElements rooted out l1)) l2.
Proof.
  revert out. induction l1 as [|e rest IH]; intros out.
  - simpl. now rewrite rev_involutive.
  - cbn [app filepath.cleanElements].
    destruct ((e =? "") || (e =? ".")); [apply IH|].
    destruct (e =? ".."); [|apply IH].
    destruct out as [|top below]; [destruct rooted; apply IH|].
    destruct (top =? ".."); apply IH.
Qed.

(** Elements free of ".." are appended, the empty and "." ones dropped. *)
Lemma cleanElements_plain (rooted : bool) (out elems : list string) :
  ~ In ".." elems ->
  filepath.cleanElements rooted out elems
  = (rev out ++ filter keptElement elems)%list.
Proof.
  revert out. induction elems as [|e rest IH]; intros out Hno.
  - simpl. now rewrite app_nil_r.
  - cbn [filepath.cleanElements filter]. unfold keptElement at 1.
    assert (Hrest : ~ In ".." rest) by (intros H; apply Hno; now right).
    destruct ((e =? "") || (e =? ".")); cbn [negb]; [now apply IH|].
    destruct (String.eqb_spec e "..") as [->|_]; [elim Hno; now left|].
    rewrite (IH _ Hrest). simpl. now rewrite <- app_assoc.
Qed.

Lemma mentions_snoc (c : ascii) (s : string) (x : ascii) :
  mentions c (s ++ String x "") = mentions c s || (x =? c)%char.
Proof.
  induction s as [|y s IH]; simpl; [now rewrite orb_false_r|].
  now rewrite IH, orb_assoc.
Qed.

(** An element equal to ".." is cut off by slashes, so it is a token. *)
Lemma dotdot_element_token (s cur cur' : string) :
  cur = cur' \/ mentions "\" cur = true ->
  In ".." (filepath.elementsFrom cur s) -> In ".." (splitFrom cur' s).
Proof.
  revert cur cur'. induction s as [|c s IH]; intros cur cur' Hcur; simpl.
  - intros [->|[]]. destruct Hcur as [<-|H]; [now left | discriminate].
  - unfold isSlashRune.
    destruct (Ascii.eqb_spec c "/") as [->|Hslash]; simpl.
    + intros [->|H].
      * destruct Hcur as [<-|H]; [now left | discriminate].
      * right. apply (IH "" ""); auto.
    + destruct (Ascii.eqb_spec c "\") as [->|Hback]; simpl.
      * intros H. right. apply (IH (cur ++ "\") ""); [|exact H].
        right. rewrite mentions_snoc. apply orb_true_r.
      * apply IH. destruct Hcur as [<-|H]; [now left|].
        right. rewrite mentions_snoc, H. reflexivity.
Qed.

Lemma valid_no_dotdot_element (r : Request) :
  validRequest r = true ->
  ~ In ".." (filepath.elementsFrom "" (URL_Path r)).
Proof.
  intros Hvalid H. apply (dotdot_element_token _ "" "") in H; [|now left].
  apply dotdot_field_iff_token, scanFields_false in H.
  rewrite <- validRequest_scan in H. congruence.
Qed.

Lemma prefix_slash_append (dir rest : string) :
  dir <> "" -> prefix "/" (dir ++ rest) = prefix "/" dir.
Proof.
  destruct dir as [|a d]; [congruence|]. intros _.
  cbn [append prefix].
  destruct (ascii_dec "/" a); [|reflexivity].
  now destruct d, rest.
Qed.

Lemma Clean_elements (path : string) :
  path <> "" ->
  filepath.Clean path = pathOf (prefix "/" path) (cleanedElements path).
Proof.
  intros Hne. unfold filepath.Clean, pathOf, cleanedElements.
  destruct (String.eqb_spec path "") as [E|_]; [congruence | reflexivity].
Qed.

Lemma pathOf_nonempty (rooted : bool) (elems : list string) :
  pathOf rooted elems <> "".
Proof.
  unfold pathOf. destruct rooted; [discriminate|].
  destruct (String.eqb_spec (String.concat "/" elems) ""); [discriminate | assumption].
Qed.

(** Joining a non-empty path with one free of ".." elements appends the
    kept elements of the latter to the cleaned elements of the former. *)
Lemma Join_plain (base path : string) :
  base <> "" ->
  ~ In ".." (filepath.elementsFrom "" path) ->
  filepath.Join [base; path]
  = pathOf (prefix "/" base)
      (cleanedElements base ++ filter keptElement (filepath.elementsFrom "" path)).
Proof.
  intros Hne Hno. cbn [filepath.Join].
  destruct (String.eqb_spec base "") as [E|_]; [congruence|].
  change (strings.Join [base; path] "/") with (base ++ String "/" path).
  rewrite Clean_elements by (destruct base; [congruence | discriminate]).
  unfold cleanedElements.
  rewrite (prefix_slash_append _ _ Hne), elementsFrom_append, cleanElements_app.
  rewrite (cleanElements_plain _ _ _ Hno), rev_involutive. reflexivity.
Qed.

(** X12.  The path joined from a root and a validated request path never
    climbs out of the root: its elements are those of the cleaned root
    followed by the elements of the request path other than the empty one
    and ".", none of which is "..".  The [index.html] candidate is that path
    with one more element. *)
Theorem validated_path_under_root (dir : string) (r : Request) :
  validRequest r = true ->
  dir <> "" ->
  let below := filter keptElement (filepath.elementsFrom "" (URL_Path r)) in
  let filePath := filepath.Join [dir; URL_Path r] in
  filepath.Clean dir = pathOf (prefix "/" dir) (cleanedElements dir)
  /\ filePath = pathOf (prefix "/" dir) (cleanedElements dir ++ below)
  /\ ~ In ".." below
  /\ filepath.Join [filePath; "index.html"]
     = pathOf (prefix "/" filePath) (cleanedElements filePath ++ ["index.html"]).
Proof.
  intros Hvalid Hne below filePath.
  pose proof (valid_no_dotdot_element r Hvalid) as Hno.
  assert (Hfile : filePath
                  = pathOf (prefix "/" dir) (cleanedElements dir ++ below)).
  { now apply Join_plain. }
  split; [now apply Clean_elements|]. split; [exact Hfile|]. split.
  - subst below. rewrite filter_In. tauto.
  - apply (Join_plain filePath "index.html").
    + rewrite Hfile. apply pathOf_nonempty.
    + simpl. intros [H|[]]. discriminate.
Qed.

Lemma validated_path_under_root_witness :
  filepath.Join ["../srv/www"; "/docs//./a..b/"]
  = pathOf false ([".."; "srv"; "www"] ++ ["docs"; "a..b"]).
Proof.
  destruct (validated_path_under_root "../srv/www" (get "/docs//./a..b/" "*/*")
              eq_refl ltac:(discriminate)) as (_ & Hfile & _).
  exact Hfile.
Defined.

(** ** Listings of directories enumerated in name order *)

Lemma sortByName_sorted_id (l : list os.FileInfo) :
  Sorted nameLe l -> ioutil.sortByName l = l.
Proof.
  induction 1 as [|x l Hsorted IH Hhd]; [reflexivity|].
  simpl. rewrite IH. destruct Hhd as [|y rest Hxy]; [reflexivity|].
  simpl. unfold nameLe in Hxy. now rewrite Hxy.
Qed.

(** X13.  When the file system enumerates a root's directory in the order of
    the file names, the listing of that root shows the parent entry and then
    the entries exactly as enumerated. *)
Theorem sorted_enumeration_kept (sys : Host) (r : Request) (dirs : list string)
    (s : World) (dir : string) (raw : list os.FileInfo) :
  In dir dirs ->
  Readdir sys (filepath.Join [dir; URL_Path r]) = Ok raw ->
  Sorted nameLe raw ->
  In (mkDirList dir (URL_Path r) (mkEntry ".." true :: map entryOf raw))
     (fst (fst (collectDirs sys r dirs [] false s))).
Proof.
  intros Hdir Hraw Hsorted. rewrite collectDirs_spec. cbn [fst app].
  unfold listingsOf. apply in_flat_map. exists dir. split; [exact Hdir|].
  rewrite Hraw, (sortByName_sorted_id _ Hsorted). now left.
Qed.

Lemma sorted_enumeration_kept_witness :
  In (mkDirList "B" "/"
        [mkEntry ".." true; mkEntry "foo.txt" false; mkEntry "sub" true])
     (fst (fst (collectDirs twoRoots (get "/" "text/html") ["A"; "B"] [] false fresh))).
Proof.
  apply (sorted_enumeration_kept twoRoots (get "/" "text/html") ["A"; "B"] fresh
           "B" [os.mkFileInfo "foo.txt" 4 false; os.mkFileInfo "sub" 5 true]).
  - simpl. right. left. reflexivity.
  - reflexivity.
  - repeat constructor.
Defined.

(** ** The roots and the fallback *)

Lemma probe_head (sys : Host) (p : string) :
  exists rest, probe sys p = AccStat p :: rest.
Proof.
  unfold probe. destruct (Stat sys p) as [st|]; [destruct (os.IsDir st)|];
    eexists; reflexivity.
Qed.

Lemma first_access (sys : Host) (flags : Flags) (dir : string)
    (dirs : list string) (r : Request) :
  validRequest r = true ->
  hd_error (accesses (respond sys flags (dir :: dirs) r))
  = Some (AccStat (filepath.Join [dir; URL_Path r])).
Proof.
  intros Hvalid.
  destruct (probe_head sys (filepath.Join [dir; URL_Path r])) as [rest Hrest].
  apply respond_cases; try (intros; congruence);
    cbn [candidates flat_map app firstn accesses served missed entered notFound
         listed];
    intros;
    try match goal with
        | Hs : fallbackSkipped _ _ _ _ |- _ =>
            destruct (fallbackSkipped_accesses _ _ _ _ Hs) as (idx & -> & _);
            cbn [candidates flat_map app accesses missed entered]
        end;
    rewrite Hrest; reflexivity.
Qed.

(** X14.  [serve] never hands the handler an empty list of roots: with no
    directory on the command line the root is the current directory.  So
    the first thing every valid request does is to stat its path under the
    first root. *)
Theorem first_root_always_consulted (sys : Host) (flags : Flags)
    (args : list string) (r : Request) :
  validRequest r = true ->
  serveDirs args <> []
  /\ hd_error (accesses (respond sys flags (serveDirs args) r))
     = Some (AccStat (filepath.Join [hd "." args; URL_Path r])).
Proof.
  intros Hvalid. destruct args as [|dir dirs]; cbn [serveDirs hd].
  - split; [discriminate | now apply first_access].
  - split; [discriminate | now apply first_access].
Qed.

Lemma first_root_always_consulted_witness :
  hd_error (accesses (respond twoRoots defaultFlags (serveDirs [])
                        (get "/foo.txt" "*/*")))
  = Some (AccStat "foo.txt").
Proof.
  destruct (first_root_always_consulted twoRoots defaultFlags []
              (get "/foo.txt" "*/*") eq_refl) as [_ H].
  exact H.
Defined.

(** X15.  With a fallback that can be opened and stat'ed, no request ever
    enumerates a directory: an unmatched request that accepts [text/html]
    gets the fallback before the listing pass is reached, also when
    listings are enabled, and its accesses end with the open and the stat
    of the fallback. *)
Theorem fallback_preempts_listing (sys : Host) (flags : Flags)
    (dirs : list string) (r : Request) (file : os.File) (stat : os.FileInfo) :
  index flags <> "" ->
  Open sys (index flags) = Ok file ->
  Stat sys (index flags) = Ok stat ->
  (forall a, In a (accesses (respond sys flags dirs r)) -> isReadDir a = false)
  /\ (validRequest r = true ->
      firstServable sys (candidates dirs (URL_Path r)) = None ->
      strings.Contains (Header_Get (Header r) "Accept") "text/html" = true ->
      accesses (respond sys flags dirs r)
      = (flat_map (probe sys) (candidates dirs (URL_Path r))
         ++ [AccOpen (index flags); AccStat (index flags)])%list).
Proof.
  intros Hne Hopen Hstat.
  assert (Hskip : forall s1 s2, ~ fallbackSkipped sys flags s1 s2).
  { intros s1 s2 [[H _]|(_ & [[e H]|[e H]] & _)]; congruence. }
  assert (Hprobes : forall paths a,
            In a (flat_map (probe sys) paths) -> isReadDir a = false).
  { intros paths a Ha. apply in_flat_map in Ha as (p & _ & Ha).
    unfold probe in Ha.
    destruct (Stat sys p) as [st|]; [destruct (os.IsDir st)|];
      simpl in Ha; intuition (subst; reflexivity). }
  apply respond_cases; intros;
    try match goal with
        | Hs : fallbackSkipped _ _ _ _ |- _ => now elim (Hskip _ _ Hs)
        end;
    cbn [accesses rejected served missed entered app].
  - split; [intros a [] | congruence].
  - split; [apply Hprobes | congruence].
  - split; [apply Hprobes | congruence].
  - split; [|reflexivity].
    intros a Ha. apply in_app_or in Ha as [Ha|Ha]; [now apply Hprobes in Ha|].
    unfold indexAccesses in Ha. simpl in Ha. intuition (subst; reflexivity).
Qed.

Lemma fallback_preempts_listing_witness :
  accesses (respond twoRoots (mkFlags "localhost" "8080" "spa.html" false false)
              ["B"] (get "/sub" "text/html"))
  = [AccStat "B/sub"; AccStat "B/sub/index.html";
     AccOpen "spa.html"; AccStat "spa.html"].
Proof.
  destruct (fallback_preempts_listing twoRoots
              (mkFlags "localhost" "8080" "spa.html" false false)
              ["B"] (get "/sub" "text/html")
              (os.mkFile "<app>") (os.mkFileInfo "spa.html" 8 false)
              ltac:(discriminate) eq_refl eq_refl) as [_ H].
  exact (H eq_refl eq_refl eq_refl).
Defined.
